(** * Bin-distribution planner of the add-liquidity form

    Shallow embedding of [getDistribution] (the [useMemo] block of the
    [AddLiquidity] component) and of the part of [handleAddLiquidity] that
    rebuilds the two distribution arrays handed to [LBRouter.addLiquidity].

    JavaScript [number]s are IEEE-754 binary64 values: they are modelled by
    Rocq's primitive floats, whose [+], [-], [*], [/] are the same
    round-to-nearest operations.  [BigInt]s are modelled by [Z].  The
    decimal strings the component keeps in [normalizedX] / [normalizedY]
    only ever hold [bigint.toString()] and are only ever read back through
    [BigInt(s)] or compared with ["0"]; they are represented by the integer
    they spell.

    The callback is embedded twice: as the function [getDistribution] of
    the strategy, which most statements are about, and statement by
    statement as a program on a store of arrays, [getDistributionOnStore],
    which is shown to end as the function does and to leave the store it
    was entered with as it was. *)

From Stdlib Require Import ZArith List String Bool Lia QArith.
From Stdlib Require Import PrimFloat SpecFloat FloatOps Uint63 DecimalString.
Import ListNotations.

Set Warnings "-inexact-float".

Local Open Scope Z_scope.

(** ** The fragment of the JavaScript runtime the component relies on *)

Module JS.

Inductive Error : Type :=
| RangeError   (* BigInt(NaN), BigInt(Infinity), BigInt(1.5) *)
| TypeError.   (* BigInt(undefined) *)

Definition error_name (e : Error) : string :=
  match e with
  | RangeError => "RangeError"
  | TypeError => "TypeError"
  end.

(** Outcome of evaluating an expression: a value, or a thrown error. *)
Inductive Completion (A : Type) : Type :=
| Normal (a : A)
| Throw (e : Error).
Arguments Normal {A} a.
Arguments Throw {A} e.

Definition bind {A B : Type} (c : Completion A) (k : A -> Completion B)
  : Completion B :=
  match c with
  | Normal a => k a
  | Throw e => Throw e
  end.

(** [Array.prototype.map] with a callback that may throw: elements are
    visited in index order and the first throw aborts the whole map. *)
Fixpoint mapM {A B : Type} (f : A -> Completion B) (l : list A)
  : Completion (list B) :=
  match l with
  | [] => Normal []
  | a :: l' =>
      bind (f a) (fun b => bind (mapM f l') (fun bs => Normal (b :: bs)))
  end.

(** The number whose value is the integer [z] (exact when |z| < 2^53). *)
Definition Number (z : Z) : float :=
  if z <? 0 then PrimFloat.opp (of_uint63 (Uint63.of_Z (- z)))
  else of_uint63 (Uint63.of_Z z).

Definition signed (s : bool) (m : positive) : Z :=
  if s then Z.neg m else Z.pos m.

(** [Math.floor]: NaN, the infinities and the zeros are returned as they
    are; a finite [m * 2^e] with [0 <= e] is already an integer. *)
Definition Math_floor (x : float) : float :=
  match Prim2SF x with
  | S754_finite s m e =>
      if 0 <=? e then x else Number (signed s m / 2 ^ (- e))
  | _ => x
  end.

(** [BigInt(x)] for a number [x]: the integer itself when [x] is
    integral, a RangeError otherwise. *)
Definition BigInt (x : float) : Completion Z :=
  match Prim2SF x with
  | S754_zero _ => Normal 0
  | S754_finite s m e =>
      if 0 <=? e then Normal (signed s m * 2 ^ e)
      else if signed s m mod 2 ^ (- e) =? 0
           then Normal (signed s m / 2 ^ (- e))
           else Throw RangeError
  | _ => Throw RangeError
  end.

(** [arr.reduce((a, b) => a + b, 0)] on numbers and on BigInts. *)
Definition sum_numbers (l : list float) : float :=
  fold_left PrimFloat.add l 0%float.

Definition sum_bigints (l : list Z) : Z := fold_left Z.add l 0.

(** [arr[i]] on an array of numbers.  Reading past the end gives
    [undefined]; the component only ever adds, divides or [=== 0]-tests
    what it reads, and in all three [undefined] behaves as NaN. *)
Definition get (l : list float) (i : nat) : float := nth i l nan.

(** [arr[i] = v] for [i] inside the array. *)
Fixpoint array_set {A : Type} (l : list A) (i : nat) (v : A) : list A :=
  match l, i with
  | [], _ => []
  | _ :: l', O => v :: l'
  | a :: l', S i' => a :: array_set l' i' v
  end.

(** [arr.findIndex(p)], with [None] for the result [-1]. *)
Fixpoint findIndex {A : Type} (p : A -> bool) (l : list A) : option nat :=
  match l with
  | [] => None
  | a :: l' => if p a then Some O else option_map S (findIndex p l')
  end.

End JS.

Import JS.

Notation "x <- c ;; k" := (bind c (fun x => k))
  (at level 61, c at next level, right associativity).

(** ** Data model *)

(** The object returned by [getDistribution]. *)
Record BinPlan : Type := mkBinPlan {
  deltaIds : list Z;
  distributionX : list Z;
  distributionY : list Z;
  planNumBins : Z
}.

(** [StrategyType], the union ["spot" | "curve" | "bidask"] the state
    variable [strategy] is declared with. *)
Inductive StrategyType : Type := spot | curve | bidask.

Definition strategy_string (s : StrategyType) : string :=
  match s with
  | spot => "spot"
  | curve => "curve"
  | bidask => "bidask"
  end.

(** ** getDistribution *)

Definition numBins : Z := 10.

(** The indices [0 .. n-1] that [Array.from({ length: n }, (_, i) => ...)]
    and the [for] loops run over. *)
Definition indices (n : Z) : list Z := map Z.of_nat (seq 0 (Z.to_nat n)).

Definition PRECISION_BI : Z := 1000000000000000000.

(** [BigInt(Math.floor(ratio * 1e9)) * BigInt(1e9)] *)
Definition scaleRatio (ratio : float) : Completion Z :=
  let ratioBig := Math_floor (ratio * 1e9)%float in
  scaledHi <- BigInt ratioBig ;;
  giga <- BigInt 1e9%float ;;
  Normal (scaledHi * giga).

(** Callback of [weightsX.map] / [weightsY.map]. *)
Definition normalizeEntry (sumSide w : float) : Completion Z :=
  if (w =? 0)%float then Normal 0 else scaleRatio (w / sumSide)%float.

(** The adjustment of one side: the first entry that is not ["0"] receives
    [PRECISION_BI - currentSum]. *)
Definition adjustSide (normalized : list Z) : list Z :=
  let currentSum := sum_bigints normalized in
  match findIndex (fun v => negb (v =? 0)) normalized with
  | Some first =>
      let diff := PRECISION_BI - currentSum in
      array_set normalized first (nth first normalized 0 + diff)
  | None => normalized
  end.

(** Body of the [for] loop that separates the weights by token: the pair
    pushed onto [weightsX] and [weightsY] for bin [i]. *)
Definition splitEntry (ids : list Z) (weights : list float) (i : Z)
  : float * float :=
  let deltaId := nth (Z.to_nat i) ids 0 in
  let weight := get weights (Z.to_nat i) in
  if deltaId <? 0 then (0%float, weight)
  else if 0 <? deltaId then (weight, 0%float)
  else ((weight / 2)%float, (weight / 2)%float).

Definition sideWeightsX (ids : list Z) (weights : list float) : list float :=
  map (fun i => fst (splitEntry ids weights i)) (indices numBins).

Definition sideWeightsY (ids : list Z) (weights : list float) : list float :=
  map (fun i => snd (splitEntry ids weights i)) (indices numBins).

(** [normalizedX] / [normalizedY] before the adjustment: every weight of
    the side divided by the side's sum, scaled and truncated. *)
Definition truncateSide (sideWeights : list float) : Completion (list Z) :=
  mapM (normalizeEntry (sum_numbers sideWeights)) sideWeights.

(** Lines 276-299: the all-bins normalisation.  Its result is not part of
    the returned object, but its [BigInt] conversions may throw. *)
Definition normalizeAll (weights : list float) (centerIndex : nat)
  : Completion (list Z) :=
  let sum := sum_numbers weights in
  normalizedWeights <- mapM (fun w => scaleRatio (w / sum)%float) weights ;;
  let currentSum := sum_bigints normalizedWeights in
  let diff := PRECISION_BI - currentSum in
  if negb (diff =? 0) && (0 <? Z.of_nat (List.length normalizedWeights))
  then match nth_error normalizedWeights centerIndex with
       | Some c => Normal (array_set normalizedWeights centerIndex (c + diff))
       | None => Throw TypeError
       end
  else Normal normalizedWeights.

(** Lines 301-371, from the raw weights on. *)
Definition planFromWeights (ids : list Z) (weights : list float)
  : Completion BinPlan :=
  normalizedX <- truncateSide (sideWeightsX ids weights) ;;
  normalizedY <- truncateSide (sideWeightsY ids weights) ;;
  Normal (mkBinPlan ids (adjustSide normalizedX) (adjustSide normalizedY)
            numBins).

(** Raw weight of bin [i] out of [n] under the "bidask" strategy. *)
Definition bidaskWeight (n i : Z) : float :=
  let normalized :=
    ((Number i - (Number n - 1) / 2) / ((Number n - 1) / 2))%float in
  (normalized * normalized + 0.1)%float.

Section Planner.

(** The host's [Math.exp].  ECMAScript leaves its result
    implementation-approximated, so it is a parameter of the model. *)
Variable Math_exp : float -> float.

(** Raw weight of bin [i] out of [n] under the "curve" strategy. *)
Definition curveWeight (n i : Z) : float :=
  let center := (Number n / 2)%float in
  let sigma := (Number n / 4)%float in
  let x := (Number i - center)%float in
  Math_exp (- (x * x) / (2 * sigma * sigma))%float.

(** The [switch (strategy)]; it has no [default], so any other string
    leaves [weights] empty. *)
Definition strategyWeights (strategy : string) : list float :=
  if String.eqb strategy "spot" then repeat 1%float (Z.to_nat numBins)
  else if String.eqb strategy "curve"
       then map (curveWeight numBins) (indices numBins)
  else if String.eqb strategy "bidask"
       then map (bidaskWeight numBins) (indices numBins)
  else [].

(** The bin offsets are integers throughout, so they are computed in [Z],
    where [numBins / 2] is already the floor [Math.floor(numBins / 2)]. *)
Definition getDistribution (strategy : string) : Completion BinPlan :=
  let ids := map (fun i => i - numBins / 2) (indices numBins) in
  let centerIndex := Z.to_nat (numBins / 2) in
  let weights := strategyWeights strategy in
  _ <- normalizeAll weights centerIndex ;;
  planFromWeights ids weights.

(** *** The memo cell behind [useMemo(..., [strategy])]

    React keeps the last dependency array with the value computed for it
    and calls the function again only when a dependency changed. *)
Record MemoCell : Type := mkMemoCell {
  memoDeps : string;
  memoValue : Completion BinPlan
}.

Definition useMemo (cell : option MemoCell) (strategy : string) : MemoCell :=
  match cell with
  | Some c =>
      if String.eqb (memoDeps c) strategy then c
      else mkMemoCell strategy (getDistribution strategy)
  | None => mkMemoCell strategy (getDistribution strategy)
  end.

(** The memo cells a component instance can hold: the one of its first
    render, and the one left by any later render. *)
Inductive rendered : MemoCell -> Prop :=
| rendered_mount (strategy : string) :
    rendered (useMemo None strategy)
| rendered_update (c : MemoCell) (strategy : string) :
    rendered c -> rendered (useMemo (Some c) strategy).

End Planner.

(** ** handleAddLiquidity: the distributions put into [liquidityParams] *)

(** The three fields of [liquidityParams] that come from the plan. *)
Record LiquidityParams : Type := mkLiquidityParams {
  paramDeltaIds : list Z;
  paramDistributionX : list Z;
  paramDistributionY : list Z
}.

(** [BigInt(s)] for an array element that is a decimal string, or
    [undefined] when it was read past the end of an array. *)
Definition BigInt_of_entry (s : option Z) : Completion Z :=
  match s with
  | Some z => Normal z
  | None => Throw TypeError
  end.

(** Callback of [getDistribution.distributionX.map((x, i) => ...)]. *)
Definition baseWeight (distY : list Z) (ix : nat * Z) : Completion Z :=
  xBig <- BigInt_of_entry (Some (snd ix)) ;;
  yBig <- BigInt_of_entry (nth_error distY (fst ix)) ;;
  Normal (xBig + yBig).

(** Body of the loop filling [finalDistributionX] / [finalDistributionY]. *)
Definition finalEntry (ids base : list Z) (i : nat) : option Z * option Z :=
  let deltaId := nth i ids 0 in
  let weight := nth_error base i in
  if deltaId <? 0 then (Some 0, weight) else (weight, Some 0).

Definition liquidityDistributions (plan : BinPlan)
  : Completion LiquidityParams :=
  let ids := deltaIds plan in
  let bins := seq 0 (List.length ids) in
  base <- mapM (baseWeight (distributionY plan))
            (combine (seq 0 (List.length (distributionX plan)))
                     (distributionX plan)) ;;
  let finalDistributionX := map (fun i => fst (finalEntry ids base i)) bins in
  let finalDistributionY := map (fun i => snd (finalEntry ids base i)) bins in
  dX <- mapM BigInt_of_entry finalDistributionX ;;
  dY <- mapM BigInt_of_entry finalDistributionY ;;
  Normal (mkLiquidityParams ids dX dY).

(** ** Math.exp on the six arguments the "curve" strategy passes

    With [numBins = 10] the exponent [-(x*x) / (2*sigma*sigma)] takes the
    values -2, -1.28, -0.72, -0.32, -0.08 and -0.  [expTable] returns the
    binary64 value nearest to the exponential at each of them. *)
Definition expTable (x : float) : float :=
  if (x =? -2)%float then 0x1.152aaa3bf81ccp-3%float
  else if (x =? -1.28)%float then 0x1.1cb5cf620ef1fp-2%float
  else if (x =? -0.72)%float then 0x1.f26f2ef268c13p-2%float
  else if (x =? -0.32)%float then 0x1.73c9ce7c81bcep-1%float
  else if (x =? -0.08)%float then 0x1.d8a2b4ac44685p-1%float
  else if (x =? 0)%float then 1%float
  else nan.

(** [v] is [c] or one of its two neighbours. *)
Definition withinOneUlp (c v : float) : Prop :=
  v = next_down c \/ v = c \/ v = next_up c.

(** What is assumed of the host's [Math.exp]: the exact 1 that ECMAScript
    prescribes at -0, and a result within one unit in the last place of
    the nearest binary64 value at the other five arguments. *)
Record faithfulExp (Math_exp : float -> float) : Prop := mkFaithfulExp {
  exp_at_0 : Math_exp (-0)%float = 1%float;
  exp_at_008 : withinOneUlp (expTable (-0.08)) (Math_exp (-0.08)%float);
  exp_at_032 : withinOneUlp (expTable (-0.32)) (Math_exp (-0.32)%float);
  exp_at_072 : withinOneUlp (expTable (-0.72)) (Math_exp (-0.72)%float);
  exp_at_128 : withinOneUlp (expTable (-1.28)) (Math_exp (-1.28)%float);
  exp_at_2 : withinOneUlp (expTable (-2)) (Math_exp (-2)%float)
}.

(** The exact rational value of a finite number (0 for NaN and the
    infinities, which [isFinite] tells apart). *)
Definition valueQ (x : float) : Q :=
  match Prim2SF x with
  | S754_finite s m e =>
      if 0 <=? e then inject_Z (signed s m * 2 ^ e)
      else Qmake (signed s m) (Z.to_pos (2 ^ (- e)))
  | _ => 0%Q
  end.

Definition isFinite (x : float) : bool :=
  match Prim2SF x with
  | S754_zero _ | S754_finite _ _ _ => true
  | _ => false
  end.

Definition sumQ (l : list float) : Q :=
  fold_right (fun x acc => Qplus (valueQ x) acc) 0%Q l.

(** The exponential series at [x] cut after the term of degree [n], in
    nested form: [1 + x/k * (1 + x/(k+1) * ( ... ))], started at [k = 1]. *)
Fixpoint seriesFrom (x : Q) (k : positive) (n : nat) : Q :=
  match n with
  | O => 1%Q
  | S n' => (1 + x / inject_Z (Z.pos k) * seriesFrom x (Pos.succ k) n')%Q
  end.

Definition expSeries (x : Q) (n : nat) : Q := seriesFrom x 1 n.

(** The unit in the last place of a finite number. *)
Definition ulpQ (x : float) : Q :=
  match Prim2SF x with
  | S754_finite _ _ e =>
      if 0 <=? e then inject_Z (2 ^ e) else Qmake 1 (Z.to_pos (2 ^ (- e)))
  | _ => 0%Q
  end.

(** For a negative argument the series alternates with decreasing terms,
    so the exponential lies between the series cut at degree 29 and the
    series cut at degree 30; [expTable a] is the nearest binary64 value
    when both are within half a unit in the last place of it. *)
Definition nearestToExp (a : float) : bool :=
  let x := valueQ a in
  let t := valueQ (expTable a) in
  let half := (ulpQ (expTable a) / 2)%Q in
  Qle_bool (expSeries x 29) (expSeries x 30) &&
  Qle_bool (t - half) (expSeries x 29) &&
  Qle_bool (expSeries x 30) (t + half).

(** ** Vocabulary of the statements *)

Definition allZero (l : list Z) : Prop := Forall (fun v => v = 0) l.

Definition someNonZero (l : list Z) : Prop := exists v, In v l /\ v <> 0.

(** The bin offsets of the ten bins. *)
Definition offsets : list Z := [-5; -4; -3; -2; -1; 0; 1; 2; 3; 4].

(** Every step of [getDistribution] on the given weights converts without
    a throw, the active bin is not truncated to zero on either side, and
    neither is the lowest bin on the Y side. *)
Definition weightsPlannable (weights : list float) : bool :=
  match normalizeAll weights 5,
        truncateSide (sideWeightsX offsets weights),
        truncateSide (sideWeightsY offsets weights) with
  | Normal _, Normal nX, Normal nY =>
      (0 <? nth 5 nX 0) && (0 <? nth 5 nY 0) && (0 <? nth 0 nY 0)
  | _, _, _ => false
  end.

(** [c] is a throw of an error with the given name. *)
Definition raises (name : string) (c : Completion BinPlan) : Prop :=
  exists e, c = Throw e /\ error_name e = name.

(** The plan of the "spot" strategy. *)
Definition spotPlan : BinPlan :=
  mkBinPlan
    [-5; -4; -3; -2; -1; 0; 1; 2; 3; 4]
    [0; 0; 0; 0; 0; 111111112000000000;
     222222222000000000; 222222222000000000; 222222222000000000;
     222222222000000000]
    [181818186000000000; 181818181000000000; 181818181000000000;
     181818181000000000; 181818181000000000; 90909090000000000;
     0; 0; 0; 0]
    10.

(** The truncated Y side of "spot", before the adjustment. *)
Definition spotTruncatedY : list Z :=
  [181818181000000000; 181818181000000000; 181818181000000000;
   181818181000000000; 181818181000000000; 90909090000000000; 0; 0; 0; 0].

(** The side rule at index [i] of a plan. *)
Definition sideRule (plan : BinPlan) (i : nat) : Prop :=
  (nth i (deltaIds plan) 0 < 0 -> nth i (distributionX plan) 0 = 0) /\
  (0 < nth i (deltaIds plan) 0 -> nth i (distributionY plan) 0 = 0) /\
  (0 < nth i (distributionX plan) 0 /\ 0 < nth i (distributionY plan) 0 ->
   nth i (deltaIds plan) 0 = 0) /\
  (nth i (deltaIds plan) 0 = 0 <-> i = 5%nat).

(** [d] is [n] with the remainder [PRECISION_BI - sum n] added at index
    [k], the first index at which [n] is non-zero, and nothing else
    changed. *)
Definition absorbsAt (n d : list Z) (k : nat) : Prop :=
  nth k n 0 <> 0 /\
  (forall j, (j < k)%nat -> nth j n 0 = 0) /\
  nth k d 0 = nth k n 0 + (PRECISION_BI - sum_bigints n) /\
  (forall j, j <> k -> nth j d 0 = nth j n 0) /\
  List.length d = List.length n.

(** The rule as the specification words it: the active-bin entry takes
    the remainder, and the first non-zero entry only when the active-bin
    entry is zero. *)
Definition adjustSide_activeFirst (activeIndex : nat) (normalized : list Z)
  : list Z :=
  let currentSum := sum_bigints normalized in
  let target :=
    if negb (nth activeIndex normalized 0 =? 0) then Some activeIndex
    else findIndex (fun v => negb (v =? 0)) normalized in
  match target with
  | Some k =>
      array_set normalized k (nth k normalized 0 + (PRECISION_BI - currentSum))
  | None => normalized
  end.

(** What [handleAddLiquidity] submits for bin [i]: the whole of
    [distributionX[i] + distributionY[i]], as X when [deltaIds[i] >= 0]
    and as Y when [deltaIds[i] < 0]. *)
Definition submittedRule (plan : BinPlan) (params : LiquidityParams) (i : nat)
  : Prop :=
  let whole := nth i (distributionX plan) 0 + nth i (distributionY plan) 0 in
  (0 <= nth i (deltaIds plan) 0 ->
   nth i (paramDistributionX params) 0 = whole /\
   nth i (paramDistributionY params) 0 = 0) /\
  (nth i (deltaIds plan) 0 < 0 ->
   nth i (paramDistributionX params) 0 = 0 /\
   nth i (paramDistributionY params) 0 = whole).

(** Exact sums of raw weights: the two bins adjacent to the active bin
    (indices 4 and 6), and the five bins at most two away from it. *)
Definition adjacentWeight (w : list float) : Q :=
  (valueQ (get w 4) + valueQ (get w 6))%Q.

Definition nearWeight (w : list float) : Q :=
  sumQ [get w 3; get w 4; get w 5; get w 6; get w 7].

(** The shares of the "curve" weight that the theorem on C8 states. *)
Definition curveShares (w : list float) : bool :=
  forallb isFinite w &&
  Qle_bool ((3 # 10) * sumQ w) (adjacentWeight w) &&
  negb (Qle_bool ((1 # 2) * sumQ w) (adjacentWeight w)) &&
  Qle_bool ((1 # 2) * sumQ w) (nearWeight w).

(** Under "bidask" with [n] bins, every interior bin weighs strictly less
    than each of the two end bins. *)
Definition endsHeaviest (n : Z) : bool :=
  forallb (fun k => let i := k + 1 in
             (bidaskWeight n i <? bidaskWeight n 0)%float &&
             (bidaskWeight n i <? bidaskWeight n (n - 1))%float)
          (indices (n - 2)).

(** * The pool hooks and the rest of the two components

    Addresses and symbols are strings.  [toLowerCase] is a parameter: the
    code only compares its results.  Addresses are hexadecimal ASCII, on
    which the [<] of JavaScript (code units, left to right, a proper
    prefix first) is [String.ltb]. *)

(** [!!s] for a string. *)
Definition truthy (s : string) : bool := negb (String.eqb s "").

(** [!!s] for a string that may be [undefined] or [null]. *)
Definition truthyOpt (s : option string) : bool :=
  match s with
  | Some s' => truthy s'
  | None => false
  end.

(** [!!n] for a number or bigint that may be [undefined]. *)
Definition truthyNum (n : option Z) : bool :=
  match n with
  | Some z => negb (z =? 0)
  | None => false
  end.

(** The [Token] interface of both components, also the shape of the
    entries of [TOKENS]. *)
Record Token : Type := mkToken {
  address : string;
  symbol : string;
  name : string;
  decimals : Z;
  logoURI : string
}.

(** One entry of a [useReadContracts] result: [status === "success"] with
    its [result], or anything else (a failure, or no entry at all). *)
Inductive ReadResult (A : Type) : Type :=
| Success (result : A)
| Failure.
Arguments Success {A} result.
Arguments Failure {A}.

(** ** use-pools.ts *)

Record TokenPair : Type := mkTokenPair {
  pairTokenX : string;
  pairTokenY : string
}.

(** An element of the array [getAllLBPairs] returns. *)
Record PairData : Type := mkPairData {
  binStep : Z;
  lbPair : string;
  createdByOwner : bool;
  ignoredForRouting : bool
}.

(** An element of [poolAddresses]. *)
Record PoolAddress : Type := mkPoolAddress {
  pairAddress : string;
  poolTokenX : string;
  poolTokenY : string;
  poolBinStep : Z
}.

(** An element of [tokenInfoCalls]; its [abi] and [chainId] are the same
    constants in every element. *)
Record InfoCall : Type := mkInfoCall {
  callAddress : string;
  functionName : string
}.

(** A value of [tokenInfoMap]. *)
Record TokenInfo : Type := mkTokenInfo {
  infoSymbol : string;
  infoDecimals : Z
}.

Record PoolToken : Type := mkPoolToken {
  ptAddress : string;
  ptSymbol : string;
  ptDecimals : Z
}.

Record PoolInfo : Type := mkPoolInfo {
  id : string;
  infoPairAddress : string;
  infoTokenX : PoolToken;
  infoTokenY : PoolToken;
  infoBinStep : Z;
  activeId : Z;
  reserveX : Z;
  reserveY : Z;
  volume24h : Z;
  liquidity : Z;
  fees24h : Z;
  apr24h : Z;
  hasRewards : bool
}.

(** An element of the [bins] array of [useBinDistribution]. *)
Record Bin : Type := mkBin {
  binId : Z;
  binReserveX : Z;
  binReserveY : Z;
  isActive : bool
}.

Definition zeroAddress : string := "0x0000000000000000000000000000000000000000".

(** A loop body that pushes onto one array, run over a list in order; the
    first throw ends the loop. *)
Fixpoint flatMapM {A B : Type} (f : A -> Completion (list B)) (l : list A)
  : Completion (list B) :=
  match l with
  | [] => Normal []
  | a :: l' =>
      bs <- f a ;;
      rest <- flatMapM f l' ;;
      Normal (bs ++ rest)
  end.

(** [set.add(x)] on a [Set] of strings kept in insertion order. *)
Definition Set_add (s : list string) (x : string) : list string :=
  if existsb (String.eqb x) s then s else s ++ [x].

(** A [Map] with string keys: the binding set last for a key is the one
    found. *)
Definition Map_set {V : Type} (m : list (string * V)) (k : string) (v : V)
  : list (string * V) :=
  (k, v) :: m.

Fixpoint Map_get {V : Type} (m : list (string * V)) (k : string) : option V :=
  match m with
  | [] => None
  | (k', v) :: m' => if String.eqb k' k then Some v else Map_get m' k
  end.

Definition Map_has {V : Type} (m : list (string * V)) (k : string) : bool :=
  match Map_get m k with
  | Some _ => true
  | None => false
  end.

(** [String(n)] for an integer, as a template literal prints it. *)
Definition numberToString (n : Z) : string :=
  NilZero.string_of_int (Z.to_int n).

Section Pools.

Variable toLowerCase : string -> string.

(** The known tokens, [Object.values(TOKENS)]. *)
Variable TOKENS : list Token.

Definition sortTokens (tokenA tokenB : string) : TokenPair :=
  if String.ltb (toLowerCase tokenA) (toLowerCase tokenB)
  then mkTokenPair tokenA tokenB
  else mkTokenPair tokenB tokenA.

(** The two nested loops of [getAllTokenPairs], from position [i] on. *)
Fixpoint tokenPairsFrom (tokens : list Token) : list TokenPair :=
  match tokens with
  | [] => []
  | ti :: rest =>
      map (fun tj => sortTokens (address ti) (address tj)) rest
      ++ tokenPairsFrom rest
  end.

Definition getAllTokenPairs : list TokenPair := tokenPairsFrom TOKENS.

(** Body of [pairs.forEach] in the [poolAddresses] memo; [pair] is
    [tokenPairs[index]], [undefined] past the end. *)
Definition pushPool (pair : option TokenPair) (pairData : PairData)
  : Completion (list PoolAddress) :=
  if truthy (lbPair pairData) && negb (String.eqb (lbPair pairData) zeroAddress)
  then match pair with
       | Some p =>
           Normal [mkPoolAddress (lbPair pairData) (pairTokenX p)
                     (pairTokenY p) (binStep pairData)]
       | None => Throw TypeError
       end
  else Normal [].

(** Body of [allPairsResults.forEach]. *)
Definition pushPoolsOfResult (tokenPairs : list TokenPair)
  (entry : nat * ReadResult (list PairData)) : Completion (list PoolAddress) :=
  match snd entry with
  | Success pairs => flatMapM (pushPool (nth_error tokenPairs (fst entry))) pairs
  | Failure => Normal []
  end.

Definition poolAddresses (tokenPairs : list TokenPair)
  (allPairsResults : option (list (ReadResult (list PairData))))
  : Completion (list PoolAddress) :=
  match allPairsResults with
  | Some results =>
      flatMapM (pushPoolsOfResult tokenPairs)
        (combine (seq 0 (List.length results)) results)
  | None => Normal []
  end.

Definition uniqueTokens (pools : list PoolAddress) : list string :=
  fold_left
    (fun s pool =>
       Set_add (Set_add s (toLowerCase (poolTokenX pool)))
         (toLowerCase (poolTokenY pool)))
    pools [].

Definition tokenInfoCalls (pools : list PoolAddress) : list InfoCall :=
  flat_map (fun tokenAddr =>
              [mkInfoCall tokenAddr "symbol"; mkInfoCall tokenAddr "decimals"])
    (uniqueTokens pools).

(** The loop of [tokenInfoMap] over [tokenInfoResults], two entries at a
    time: [results] lists, for [i = 2k], the symbol read at [i] with the
    decimals read at [i + 1] (a missing last entry fails the status test
    like a failure).  [calls[i]] is [undefined] past the end. *)
Fixpoint fetchedTokenInfo (calls : list InfoCall)
  (results : list (ReadResult string * ReadResult Z)) (k : nat)
  (map : list (string * TokenInfo)) : Completion (list (string * TokenInfo)) :=
  match results with
  | [] => Normal map
  | (Success sym, Success dec) :: results' =>
      match nth_error calls (2 * k) with
      | Some call =>
          fetchedTokenInfo calls results' (S k)
            (Map_set map (toLowerCase (callAddress call)) (mkTokenInfo sym dec))
      | None => Throw TypeError
      end
  | _ :: results' => fetchedTokenInfo calls results' (S k) map
  end.

(** Body of the fallback [Object.values(TOKENS).forEach]. *)
Definition addKnownToken (map : list (string * TokenInfo)) (token : Token)
  : list (string * TokenInfo) :=
  if Map_has map (toLowerCase (address token)) then map
  else Map_set map (toLowerCase (address token))
         (mkTokenInfo (symbol token) (decimals token)).

Definition tokenInfoMap (calls : list InfoCall)
  (tokenInfoResults : option (list (ReadResult string * ReadResult Z)))
  : Completion (list (string * TokenInfo)) :=
  fetched <- match tokenInfoResults with
             | Some results => fetchedTokenInfo calls results 0 []
             | None => Normal []
             end ;;
  Normal (fold_left addKnownToken TOKENS fetched).

(** [tokenInfoMap.get(addr.toLowerCase()) || { symbol: "???", decimals: 18 }] *)
Definition tokenInfoOr (map : list (string * TokenInfo)) (addr : string)
  : TokenInfo :=
  match Map_get map (toLowerCase addr) with
  | Some info => info
  | None => mkTokenInfo "???" 18
  end.

Definition poolInfo (map : list (string * TokenInfo)) (pool : PoolAddress)
  : PoolInfo :=
  let tokenXInfo := tokenInfoOr map (poolTokenX pool) in
  let tokenYInfo := tokenInfoOr map (poolTokenY pool) in
  mkPoolInfo
    (pairAddress pool ++ "-" ++ numberToString (poolBinStep pool))
    (pairAddress pool)
    (mkPoolToken (poolTokenX pool) (infoSymbol tokenXInfo)
       (infoDecimals tokenXInfo))
    (mkPoolToken (poolTokenY pool) (infoSymbol tokenYInfo)
       (infoDecimals tokenYInfo))
    (poolBinStep pool)
    0 0 0 0 0 0 0 false.

Definition pools (poolList : list PoolAddress)
  (map : list (string * TokenInfo)) : list PoolInfo :=
  List.map (poolInfo map) poolList.

End Pools.

(** *** useBinDistribution

    [activeId] and [numBins] are integers; [numBins / 2] in [Z] is
    [Math.floor(numBins / 2)], and [Array.from({ length: numBins }, ...)]
    is empty for a non-positive [numBins].

    The source computes the ids on binary64 numbers.  Sums and
    differences of integers are exact there as long as no operand and no
    result exceeds 2^53 in magnitude, and [Array.from] builds the array
    only up to 2^32 - 1 entries (it throws a RangeError above).  The
    integer arithmetic below is the source's on this range, which
    [idsExact] delimits; it says nothing about the source outside of it
    (at [activeId = 2^53] with three bins the source lists 2^53 twice).
    The branch of a missing or zero [activeId] does no arithmetic and is
    not concerned. *)
Definition idsExact (activeId numBins : Z) : Prop :=
  Z.abs activeId + numBins <= 2 ^ 53 /\ numBins <= 2 ^ 32 - 1.

(** The id of the bin at index [i] as the source computes it, on
    numbers: [activeId - Math.floor(numBins / 2) + i]. *)
Definition binIdNumber (activeId numBins i : Z) : float :=
  (Number activeId - Math_floor (Number numBins / 2) + Number i)%float.

Definition binIds (activeId : option Z) (numBins : Z) : list Z :=
  match activeId with
  | Some a =>
      if truthyNum activeId
      then map (fun i => a - numBins / 2 + i) (indices numBins)
      else []
  | None => []
  end.

(** The [getBin] calls: the bin ids asked for. *)
Definition binCalls (pairAddress : option string) (activeId : option Z)
  (numBins : Z) : list Z :=
  if truthyOpt pairAddress && truthyNum activeId
  then binIds activeId numBins
  else [].

(** [binData?.[k] ?? BigInt(0)] *)
Definition reserveAt (binData : option (list Z)) (k : nat) : Z :=
  match binData with
  | Some l => nth k l 0
  | None => 0
  end.

Definition binOf (activeId : option Z)
  (data : option (list (ReadResult (list Z)))) (entry : nat * Z) : Bin :=
  let result := match data with
                | Some d => nth_error d (fst entry)
                | None => None
                end in
  let binData := match result with
                 | Some (Success r) => Some r
                 | _ => None
                 end in
  mkBin (snd entry) (reserveAt binData 0) (reserveAt binData 1)
    (match activeId with
     | Some a => snd entry =? a
     | None => false
     end).

Definition bins (activeId : option Z) (numBins : Z)
  (data : option (list (ReadResult (list Z)))) : list Bin :=
  let ids := binIds activeId numBins in
  map (binOf activeId data) (combine (seq 0 (List.length ids)) ids).

(** ** The add-liquidity form around [getDistribution] *)

(** The [poolTokenX] / [poolTokenY] props: [address] and [decimals] are
    optional. *)
Record PoolTokenProp : Type := mkPoolTokenProp {
  propAddress : option string;
  propSymbol : string;
  propDecimals : option Z
}.

(** What the token-order block of [handleAddLiquidity] assigns. *)
Record FinalOrder : Type := mkFinalOrder {
  finalContractTokenX : string;
  finalContractTokenY : string;
  finalTokenX : Token;
  finalTokenY : Token;
  finalAmountX : string;
  finalAmountY : string
}.

(** The component state and hook results [handleAddLiquidity] reads;
    [account] is the [address] of [useAccount]. *)
Record FormState : Type := mkFormState {
  tokenX : option Token;
  tokenY : option Token;
  amountX : string;
  amountY : string;
  account : option string;
  poolPairAddress : option string;
  isLoadingPoolData : bool;
  contractTokenX : option string;
  contractTokenY : option string;
  poolActiveId : option Z;
  formBinStep : Z
}.

(** The whole [liquidityParams] object. *)
Record LiquidityParameters : Type := mkLiquidityParameters {
  lpTokenX : string;
  lpTokenY : string;
  lpBinStep : Z;
  lpAmountX : Z;
  lpAmountXMin : Z;
  lpAmountY : Z;
  lpAmountYMin : Z;
  lpActiveIdDesired : Z;
  lpIdSlippage : Z;
  lpDeltaIds : list Z;
  lpDistributionX : list Z;
  lpDistributionY : list Z;
  lpTo : string;
  lpRefundTo : string;
  lpDeadline : Z
}.

(** How a run of [handleAddLiquidity] ends, up to the call of
    [writeContractAsync]. *)
Inductive AddLiquidityOutcome : Type :=
| ReturnedEarly            (* the first guard: nothing happens *)
| ToastPoolLoading         (* "Pool bilgileri yükleniyor" *)
| ToastPoolDataMissing     (* "Pool bilgileri yüklenemedi" *)
| ToastTokenInfoMissing    (* "Token bilgileri eksik" *)
| ToastApprovalNeeded      (* "Approval gerekli" *)
| ToastAllowanceFailed     (* "Allowance kontrolü yapılamadı" *)
| ToastAddFailed           (* "Add liquidity failed" *)
| UncaughtThrow            (* parseUnits threw outside the try blocks *)
| CallAddLiquidity (params : LiquidityParameters).

(** The fields of a caught error that the failure toast looks at. *)
Record CaughtError : Type := mkCaughtError {
  shortMessage : option string;
  message : option string;
  dataMessage : option string;
  causeMessage : option string
}.

(** The four pieces of state [handleSwap] exchanges. *)
Record SwapState : Type := mkSwapState {
  fromToken : option Token;
  toToken : option Token;
  fromAmount : string;
  toAmount : string
}.

(** [!!x] for a number: false for 0, -0 and NaN. *)
Definition truthyNumber (x : float) : bool :=
  negb (x =? 0)%float && (x =? x)%float.

(** Division of BigInts truncates towards zero. *)
Definition slippageMin (amount : Z) : Z := (amount * 95) ÷ 100.

Definition approvalAmount (amount : Z) : Z := (amount * 110) ÷ 100.

(** [poolActiveId ? BigInt(poolActiveId) : BigInt(8388608)] *)
Definition activeIdToUse (poolActiveId : option Z) : Z :=
  match poolActiveId with
  | Some a => if truthyNum poolActiveId then a else 8388608
  | None => 8388608
  end.

(** [BigInt(Math.floor(Date.now() / 1000) + 1200)], [now] being the
    integer [Date.now()] returns. *)
Definition deadlineAt (now : Z) : Completion Z :=
  BigInt (Math_floor (Number now / 1000) + 1200)%float.

(** One arm of the [if] / [else if] chain that picks the message of the
    failure toast: the field when it is a non-empty string, otherwise
    what the rest of the chain gives. *)
Definition orElse (field : option string) (rest : string) : string :=
  match field with
  | Some m => if truthy m then m else rest
  | None => rest
  end.

Definition errorMessage (error : CaughtError) : string :=
  orElse (shortMessage error)
    (orElse (message error)
       (orElse (dataMessage error)
          (orElse (causeMessage error) "Bilinmeyen hata"))).

(** [handleSwap] of the swap card: the state after the four setters. *)
Definition handleSwap (st : SwapState) : SwapState :=
  let temp := fromToken st in
  mkSwapState (toToken st) temp (toAmount st) (fromAmount st).

Section AddLiquidityForm.

Variable toLowerCase : string -> string.

(** The known tokens, [Object.values(TOKENS)]. *)
Variable TOKENS : list Token.

(** viem's [parseUnits(value, decimals)]; [None] when it throws. *)
Variable parseUnits : string -> Z -> option Z.

(** Predicate of the [find] in [resolvePoolToken]. *)
Definition matchesPoolToken (poolToken : PoolTokenProp) (t : Token) : bool :=
  String.eqb (toLowerCase (symbol t)) (toLowerCase (propSymbol poolToken))
  || match propAddress poolToken with
     | Some a =>
         truthy a && String.eqb (toLowerCase (address t)) (toLowerCase a)
     | None => false
     end.

Definition resolvePoolToken (poolToken : option PoolTokenProp) : option Token :=
  match poolToken with
  | None => None
  | Some p =>
      match find (matchesPoolToken p) TOKENS with
      | Some found => Some found
      | None =>
          Some (mkToken
                  (match propAddress p with
                   | Some a => if truthy a then a else ""
                   | None => ""
                   end)
                  (propSymbol p)
                  (propSymbol p)
                  (match propDecimals p with
                   | Some d => if truthyNum (propDecimals p) then d else 18
                   | None => 18
                   end)
                  "")
      end
  end.

(** The fallback branch of the token-order block: the two resolved
    addresses, the smaller one first; [None] when one of them is empty
    and the block ends in the "Pool bilgileri yüklenemedi" toast. *)
Definition fallbackOrder (tX tY : Token) (amtX amtY : string)
  : option FinalOrder :=
  if truthy (address tX) && truthy (address tY) then
    if String.ltb (toLowerCase (address tX)) (toLowerCase (address tY))
    then Some (mkFinalOrder (address tX) (address tY) tX tY amtX amtY)
    else Some (mkFinalOrder (address tY) (address tX) tY tX amtY amtX)
  else None.

(** The token-order block of [handleAddLiquidity]. *)
Definition resolveOrder (tX tY : Token) (amtX amtY : string)
  (cX cY : option string) : option FinalOrder :=
  match cX, cY with
  | Some contractX, Some contractY =>
      if truthy contractX && truthy contractY then
        let tokenXIsContractX :=
          String.eqb (toLowerCase (address tX)) (toLowerCase contractX) in
        Some (mkFinalOrder contractX contractY
                (if tokenXIsContractX then tX else tY)
                (if tokenXIsContractX then tY else tX)
                (if tokenXIsContractX then amtX else amtY)
                (if tokenXIsContractX then amtY else amtX))
      else fallbackOrder tX tY amtX amtY
  | _, _ => fallbackOrder tX tY amtX amtY
  end.

(** The token [currentPrice] takes for [finalTokenX]. *)
Definition priceTokenX (tX tY : Token) (cX cY : option string)
  (poolXAddress poolYAddress : option string) : Token :=
  if truthyOpt cX && truthyOpt cY then
    match cX with
    | Some contractX =>
        if String.eqb (toLowerCase (address tX)) (toLowerCase contractX)
        then tX else tY
    | None => tX
    end
  else if truthyOpt poolXAddress && truthyOpt poolYAddress then
    match poolXAddress, poolYAddress with
    | Some px, Some py =>
        if String.ltb (toLowerCase px) (toLowerCase py) then tX else tY
    | _, _ => tX
    end
  else
    if String.ltb (toLowerCase (address tX)) (toLowerCase (address tY))
    then tX else tY.

(** [needsSwap] of [currentPrice]. *)
Definition priceNeedsSwap (tX tY : Token) (cX cY : option string)
  (poolXAddress poolYAddress : option string) : bool :=
  negb (String.eqb (toLowerCase (address tX))
          (toLowerCase
             (address (priceTokenX tX tY cX cY poolXAddress poolYAddress)))).

(** The [currentPrice] memo; [pairPrice] is what
    [getPairPrice(tokenX.symbol, tokenY.symbol)] returned, [None] for
    [null] or [undefined]. *)
Definition currentPrice (tX tY : option Token) (pairPrice : option float)
  (cX cY : option string) (poolXAddress poolYAddress : option string)
  : float :=
  match tX, tY with
  | Some tokX, Some tokY =>
      match pairPrice with
      | Some price =>
          if truthyNumber price then
            if priceNeedsSwap tokX tokY cX cY poolXAddress poolYAddress
            then (1 / price)%float else price
          else 0.0004%float
      | None => 0.0004%float
      end
  | _, _ => 0.0004%float
  end.

(** [needsApprovalX] / [needsApprovalY] of the form and [needsApproval]
    of the swap card; a missing [allowance] compares false. *)
Definition needsApproval (amount : string) (token : option Token)
  (allowance : option Z) : bool :=
  match token with
  | Some t =>
      if truthy amount then
        match parseUnits amount (decimals t), allowance with
        | Some parsed, Some allowed => allowed <? parsed
        | _, _ => false
        end
      else false
  | None => false
  end.

(** The [try] block that builds [liquidityParams]; every throw in it ends
    in the same [catch]. *)
Definition buildLiquidityParams (st : FormState) (order : FinalOrder)
  (to : string) (plan : BinPlan) (now : Z) : option LiquidityParameters :=
  match parseUnits (finalAmountX order) (decimals (finalTokenX order)),
        parseUnits (finalAmountY order) (decimals (finalTokenY order)),
        liquidityDistributions plan, deadlineAt now with
  | Some amtX, Some amtY, Normal dist, Normal deadline =>
      Some (mkLiquidityParameters
              (finalContractTokenX order)
              (finalContractTokenY order)
              (formBinStep st)
              amtX (slippageMin amtX)
              amtY (slippageMin amtY)
              (activeIdToUse (poolActiveId st))
              100
              (paramDeltaIds dist)
              (paramDistributionX dist)
              (paramDistributionY dist)
              to to
              deadline)
  | _, _, _, _ => None
  end.

(** [handleAddLiquidity]; [plan] is the value of the [getDistribution]
    memo, [allowanceXResult] and [allowanceYResult] what the two
    [readContract] calls resolve to ([None] when one rejects), [now] the
    value of [Date.now()].  The two dynamic imports are taken to load. *)
Definition handleAddLiquidity (st : FormState) (plan : BinPlan)
  (allowanceXResult allowanceYResult : option Z) (now : Z)
  : AddLiquidityOutcome :=
  match tokenX st, tokenY st, account st with
  | Some tX, Some tY, Some to =>
      if negb (truthy (amountX st)) || negb (truthy (amountY st))
         || negb (truthy to)
      then ReturnedEarly
      else if truthyOpt (poolPairAddress st) && isLoadingPoolData st
      then ToastPoolLoading
      else
        match resolveOrder tX tY (amountX st) (amountY st)
                (contractTokenX st) (contractTokenY st) with
        | None => ToastPoolDataMissing
        | Some order =>
            if negb (truthy (finalAmountX order))
               || negb (truthy (finalAmountY order))
            then ToastTokenInfoMissing
            else
              match parseUnits (amountX st) (decimals tX),
                    parseUnits (amountY st) (decimals tY) with
              | Some uiAmountXBig, Some uiAmountYBig =>
                  match allowanceXResult, allowanceYResult with
                  | Some tokenXAllowance, Some tokenYAllowance =>
                      if (tokenXAllowance <? uiAmountXBig)
                         || (tokenYAllowance <? uiAmountYBig)
                      then ToastApprovalNeeded
                      else
                        match buildLiquidityParams st order to plan now with
                        | Some params => CallAddLiquidity params
                        | None => ToastAddFailed
                        end
                  | _, _ => ToastAllowanceFailed
                  end
              | _, _ => UncaughtThrow
              end
        end
  | _, _, _ => ReturnedEarly
  end.

End AddLiquidityForm.

(** The fallback entry of [tokenInfoMap] for a key: symbol and decimals
    of the first known token whose lower-cased address is the key. *)
Definition knownInfo (toLowerCase : string -> string) (TOKENS : list Token)
  (key : string) : option TokenInfo :=
  option_map (fun t => mkTokenInfo (symbol t) (decimals t))
    (find (fun t => String.eqb (toLowerCase (address t)) key) TOKENS).

(** Every entry of both sides of the plan computed from the weights lies
    between 0 and the precision. *)
Definition planInRange (weights : list float) : bool :=
  match planFromWeights offsets weights with
  | Normal plan =>
      forallb (fun v => (0 <=? v) && (v <=? PRECISION_BI))
        (distributionX plan ++ distributionY plan)
  | Throw _ => false
  end.

(** ** getDistribution on a store

    The callback of [useMemo] once more, statement by statement, with what
    the function [getDistribution] above leaves implicit: the arrays it
    allocates, pushes onto and assigns into, the arrays that exist when
    it is entered, what a statement can do to the world around the
    component, and the variables of the component in its scope. *)

(** An array of numbers or of decimal strings. *)
Inductive Cell : Type :=
| NumberArray (l : list float)
| StringArray (l : list Z).

Inductive Ref : Type :=
| Existing (n : nat)   (* an array that exists when the callback is entered *)
| Fresh (n : nat).     (* the n-th array the callback allocates *)

(** What the statements of the two components do besides computing:
    [console.log], [toast], a state setter, a contract write. *)
Inductive Effect : Type :=
| ConsoleLog (line : string)
| ShowToast (title : string)
| SetState (variable : string)
| WriteContract (functionName : string).

Record Store : Type := mkStore {
  existing : list Cell;
  effects : list Effect;   (* the effects performed so far, oldest first *)
  fresh : list Cell
}.

(** The variables in scope of the callback: the [strategy] state and the
    rest of the component state. *)
Record Scope : Type := mkScope {
  scopeStrategy : string;
  scopeForm : FormState
}.

(** The object literal the callback returns: three references and a
    number. *)
Record PlanObject : Type := mkPlanObject {
  objDeltaIds : Ref;
  objDistributionX : Ref;
  objDistributionY : Ref;
  objNumBins : Z
}.

(** A statement: it runs on a store and leaves a store, with a value or a
    thrown error. *)
Definition Exec (A : Type) : Type := Store -> Completion A * Store.

Definition ret {A : Type} (a : A) : Exec A := fun s => (Normal a, s).

Definition lift {A : Type} (c : Completion A) : Exec A := fun s => (c, s).

Definition bindExec {A B : Type} (m : Exec A) (k : A -> Exec B) : Exec B :=
  fun s =>
    match m s with
    | (Normal a, s') => k a s'
    | (Throw e, s') => (Throw e, s')
    end.

Notation "x <~ m ;; k" := (bindExec m (fun x => k))
  (at level 61, m at next level, right associativity).

(** [[]], [Array(n).fill(v)], [Array.from(...)] and the result of
    [arr.map(...)]: a new array, distinct from every other. *)
Definition allocate (c : Cell) : Exec Ref :=
  fun s => (Normal (Fresh (List.length (fresh s))),
            mkStore (existing s) (effects s) (fresh s ++ [c])).

Definition cellAt (s : Store) (r : Ref) : option Cell :=
  match r with
  | Existing n => nth_error (existing s) n
  | Fresh n => nth_error (fresh s) n
  end.

Definition perform (e : Effect) : Exec unit :=
  fun s => (Normal tt, mkStore (existing s) (effects s ++ [e]) (fresh s)).

(** Reading a whole array, as [reduce], [map] and [findIndex] do.
    TypeScript types every reference as [number[]] or [string[]]; the
    model has no value for a reference of the other kind, or for one that
    designates nothing, and stops with a TypeError there. *)
Definition readNumbers (r : Ref) : Exec (list float) :=
  fun s =>
    match cellAt s r with
    | Some (NumberArray l) => (Normal l, s)
    | _ => (Throw TypeError, s)
    end.

Definition readStrings (r : Ref) : Exec (list Z) :=
  fun s =>
    match cellAt s r with
    | Some (StringArray l) => (Normal l, s)
    | _ => (Throw TypeError, s)
    end.

(** Replacing the content of an array, whichever part of the store it is
    in. *)
Definition update (r : Ref) (c : Cell) : Exec unit :=
  fun s =>
    (Normal tt,
     match r with
     | Existing n =>
         mkStore (array_set (existing s) n c) (effects s) (fresh s)
     | Fresh n =>
         mkStore (existing s) (effects s) (array_set (fresh s) n c)
     end).

(** [arr.push(v)] *)
Definition pushNumber (r : Ref) (v : float) : Exec unit :=
  l <~ readNumbers r ;; update r (NumberArray (l ++ [v])).

(** [arr[i]] on numbers. *)
Definition numberAt (r : Ref) (i : nat) : Exec float :=
  l <~ readNumbers r ;; ret (get l i).

(** [BigInt(arr[i])] on decimal strings. *)
Definition bigintAt (r : Ref) (i : nat) : Exec Z :=
  l <~ readStrings r ;; lift (BigInt_of_entry (nth_error l i)).

(** [arr[i] = v.toString()] *)
Definition setString (r : Ref) (i : nat) (v : Z) : Exec unit :=
  l <~ readStrings r ;; update r (StringArray (array_set l i v)).

(** [arr.map(cb)] with a callback from numbers to decimal strings: the
    result array is created, then filled in index order; a throw of the
    callback leaves it behind unreferenced. *)
Definition mapToStrings (cb : float -> Completion Z) (r : Ref) : Exec Ref :=
  l <~ readNumbers r ;;
  result <~ allocate (StringArray []) ;;
  out <~ lift (mapM cb l) ;;
  _ <~ update result (StringArray out) ;;
  ret result.

(** [for (let i = 0; i < n; i++) body] *)
Fixpoint forEach {A : Type} (l : list A) (body : A -> Exec unit)
  : Exec unit :=
  match l with
  | [] => ret tt
  | a :: l' => _ <~ body a ;; forEach l' body
  end.

(** Body of the loop at lines 312-329. *)
Definition splitStep (deltaIds weights weightsX weightsY : Ref) (i : Z)
  : Exec unit :=
  deltaId <~ numberAt deltaIds (Z.to_nat i) ;;
  weight <~ numberAt weights (Z.to_nat i) ;;
  if (deltaId <? 0)%float
  then _ <~ pushNumber weightsY weight ;; pushNumber weightsX 0%float
  else if (0 <? deltaId)%float
  then _ <~ pushNumber weightsX weight ;; pushNumber weightsY 0%float
  else _ <~ pushNumber weightsX (weight / 2)%float ;;
       pushNumber weightsY (weight / 2)%float.

(** Lines 361-364 and 366-369. *)
Definition adjustAt (normalized : Ref) (first : option nat) (currentSum : Z)
  : Exec unit :=
  match first with
  | Some k =>
      let diff := PRECISION_BI - currentSum in
      entry <~ bigintAt normalized k ;;
      setString normalized k (entry + diff)
  | None => ret tt
  end.

(** Lines 282-299: the all-bins normalisation, on the array [weights]
    refers to. *)
Definition normalizeAllOnStore (weights : Ref) (centerIndex : nat)
  : Exec unit :=
  ws <~ readNumbers weights ;;
  let sum := sum_numbers ws in
  normalizedWeights <~
    mapToStrings (fun w => scaleRatio (w / sum)%float) weights ;;
  nws <~ readStrings normalizedWeights ;;
  let currentSum := sum_bigints nws in
  let diff := PRECISION_BI - currentSum in
  if negb (diff =? 0) && (0 <? Z.of_nat (List.length nws))
  then entry <~ bigintAt normalizedWeights centerIndex ;;
       setString normalizedWeights centerIndex (entry + diff)
  else ret tt.

(** Lines 305-371. *)
Definition planFromWeightsOnStore (deltaIds weights : Ref)
  : Exec PlanObject :=
  distributionX <~ allocate (StringArray []) ;;
  distributionY <~ allocate (StringArray []) ;;
  weightsX <~ allocate (NumberArray []) ;;
  weightsY <~ allocate (NumberArray []) ;;
  _ <~ forEach (indices numBins)
         (splitStep deltaIds weights weightsX weightsY) ;;
  wsX <~ readNumbers weightsX ;;
  let sumX := sum_numbers wsX in
  wsY <~ readNumbers weightsY ;;
  let sumY := sum_numbers wsY in
  normalizedX <~ mapToStrings (normalizeEntry sumX) weightsX ;;
  normalizedY <~ mapToStrings (normalizeEntry sumY) weightsY ;;
  nX <~ readStrings normalizedX ;;
  let currentSumX := sum_bigints nX in
  nY <~ readStrings normalizedY ;;
  let currentSumY := sum_bigints nY in
  let firstNonZeroX := findIndex (fun v => negb (v =? 0)) nX in
  let firstNonZeroY := findIndex (fun v => negb (v =? 0)) nY in
  _ <~ adjustAt normalizedX firstNonZeroX currentSumX ;;
  _ <~ adjustAt normalizedY firstNonZeroY currentSumY ;;
  ret (mkPlanObject deltaIds normalizedX normalizedY numBins).

Section PlannerOnStore.

Variable Math_exp : float -> float.

(** The [switch (strategy)]: each [case] assigns a new array to [weights];
    without a matching [case] the variable keeps the empty array it was
    declared with. *)
Definition switchWeights (strategy : string) (declared : Ref) : Exec Ref :=
  if String.eqb strategy "spot"
  then allocate (NumberArray (repeat 1%float (Z.to_nat numBins)))
  else if String.eqb strategy "curve"
  then allocate (NumberArray (map (curveWeight Math_exp numBins)
                                (indices numBins)))
  else if String.eqb strategy "bidask"
  then allocate (NumberArray (map (bidaskWeight numBins) (indices numBins)))
  else ret declared.

(** The callback of [useMemo], lines 246-371.  Of its scope it reads
    [strategy]. *)
Definition getDistributionOnStore (scope : Scope) : Exec PlanObject :=
  deltaIds <~ allocate
               (NumberArray
                  (map (fun i =>
                          (Number i - Math_floor (Number numBins / 2))%float)
                     (indices numBins))) ;;
  let centerIndex := Z.to_nat (numBins / 2) in
  declared <~ allocate (NumberArray []) ;;
  weights <~ switchWeights (scopeStrategy scope) declared ;;
  _ <~ normalizeAllOnStore weights centerIndex ;;
  planFromWeightsOnStore deltaIds weights.

End PlannerOnStore.

(** The plan an object denotes in a store: the content of its three
    arrays, the bin offsets as the integers [BigInt] makes of them. *)
Definition planOf (s : Store) (o : PlanObject) : Completion BinPlan :=
  fst ((ids <~ readNumbers (objDeltaIds o) ;;
        offs <~ lift (mapM BigInt ids) ;;
        dX <~ readStrings (objDistributionX o) ;;
        dY <~ readStrings (objDistributionY o) ;;
        ret (mkBinPlan offs dX dY (objNumBins o))) s).

(** What a run of the callback hands to its caller. *)
Definition outcome (run : Completion PlanObject * Store)
  : Completion BinPlan :=
  match fst run with
  | Normal o => planOf (snd run) o
  | Throw e => Throw e
  end.

(** ** Concrete inputs for the examples *)

(** [toLowerCase] on ASCII strings. *)
Definition lowerAscii (c : Ascii.ascii) : Ascii.ascii :=
  let n := Ascii.nat_of_ascii c in
  if (65 <=? n)%nat && (n <=? 90)%nat then Ascii.ascii_of_nat (n + 32) else c.

Fixpoint asciiToLowerCase (s : string) : string :=
  match s with
  | EmptyString => EmptyString
  | String c s' => String (lowerAscii c) (asciiToLowerCase s')
  end.

Definition exampleWETH : Token :=
  mkToken "0x4200000000000000000000000000000000000006" "WETH"
    "Wrapped Ether" 18 "".

Definition exampleUSDC : Token :=
  mkToken "0x036CbD53842c5426634e7929541eC2318f3dCF7e" "USDC" "USD Coin" 6 "".

Definition exampleEURC : Token :=
  mkToken "0x808456652fdb597867f38412077A9182bf77359F" "EURC" "Euro Coin" 6 "".

Definition exampleTokens : list Token := [exampleWETH; exampleUSDC; exampleEURC].

(** A [parseUnits] for the examples: a string of digits read as a whole
    number of tokens. *)
Definition exampleParseUnits (value : string) (dec : Z) : option Z :=
  match NilEmpty.uint_of_string value with
  | Some u => Some (Z.of_uint u * 10 ^ dec)
  | None => None
  end.

(** The pairs of the example tokens, a factory answer for them, and the
    pools and the token-info map the hooks derive from it. *)
Definition examplePairs : list TokenPair :=
  getAllTokenPairs asciiToLowerCase exampleTokens.

Definition examplePairResults : list (ReadResult (list PairData)) :=
  [Success [mkPairData 25 "0x1111111111111111111111111111111111111111" true false;
            mkPairData 10 zeroAddress false false];
   Failure;
   Success [mkPairData 15 "0x2222222222222222222222222222222222222222" false false]].

Definition examplePools : list PoolAddress :=
  Eval vm_compute in
    match poolAddresses examplePairs (Some examplePairResults) with
    | Normal l => l
    | Throw _ => []
    end.

Definition exampleInfoResults : list (ReadResult string * ReadResult Z) :=
  [(Success "USDC.e", Success 6); (Failure, Success 18)]%string.

Definition exampleInfoMap : list (string * TokenInfo) :=
  Eval vm_compute in
    match tokenInfoMap asciiToLowerCase exampleTokens
            (tokenInfoCalls asciiToLowerCase examplePools)
            (Some exampleInfoResults) with
    | Normal m => m
    | Throw _ => []
    end.

(** A filled-in form on a pool whose contract order is (USDC, WETH). *)
Definition exampleForm : FormState :=
  mkFormState (Some exampleWETH) (Some exampleUSDC) "2" "5000"
    (Some "0x00000000000000000000000000000000000000aa"%string)
    (Some "0x1111111111111111111111111111111111111111"%string)
    false
    (Some (address exampleUSDC)) (Some (address exampleWETH))
    (Some 8388600) 25.

(** The form as it is mounted: nothing chosen, nothing typed, the pool
    data still loading. *)
Definition blankForm : FormState :=
  mkFormState None None EmptyString EmptyString None None true None None
    None 0.

(** What the token-order block gives on [exampleForm], and the call
    [handleAddLiquidity] makes with the "spot" plan once both allowances
    cover the amounts, at [Date.now() = 1700000000123]. *)
Definition exampleOrder : FinalOrder :=
  mkFinalOrder (address exampleUSDC) (address exampleWETH)
    exampleUSDC exampleWETH "5000" "2".


Definition examplePool : PoolAddress :=
  mkPoolAddress "0x1111111111111111111111111111111111111111"
    (address exampleUSDC) (address exampleWETH) 25.

Definition exampleBinData : option (list (ReadResult (list Z))) :=
  Some [Success [1; 2]; Failure].

(** * Properties *)

(** ** Arrays: sums, in-place writes, findIndex, throwing maps *)

Lemma fold_add_acc (l : list Z) (a : Z) :
  fold_left Z.add l a = a + sum_bigints l.
Proof.
  unfold sum_bigints. revert a.
  induction l as [|x l IH]; intros a; simpl; [lia|].
  rewrite IH, (IH x). lia.
Qed.

Lemma sum_bigints_cons (a : Z) (l : list Z) :
  sum_bigints (a :: l) = a + sum_bigints l.
Proof. unfold sum_bigints at 1. simpl. apply fold_add_acc. Qed.

Lemma sum_bigints_nil : sum_bigints [] = 0.
Proof. reflexivity. Qed.

Lemma array_set_length {A : Type} (l : list A) (i : nat) (v : A) :
  List.length (array_set l i v) = List.length l.
Proof.
  revert i. induction l as [|a l IH]; intros [|i]; simpl; auto.
Qed.

Lemma nth_array_set_same {A : Type} (l : list A) (i : nat) (v d : A) :
  (i < List.length l)%nat -> nth i (array_set l i v) d = v.
Proof.
  revert i. induction l as [|a l IH]; intros [|i] Hi; simpl in *;
    try lia; auto.
  apply IH. lia.
Qed.

Lemma nth_array_set_other {A : Type} (l : list A) (i j : nat) (v d : A) :
  i <> j -> nth j (array_set l i v) d = nth j l d.
Proof.
  revert i j. induction l as [|a l IH]; intros [|i] [|j] Hij; simpl;
    try congruence; auto.
Qed.

Lemma sum_array_set (l : list Z) (i : nat) (v : Z) :
  (i < List.length l)%nat ->
  sum_bigints (array_set l i v) = sum_bigints l - nth i l 0 + v.
Proof.
  revert i. induction l as [|a l IH]; intros [|i] Hi; simpl in *; try lia.
  - rewrite !sum_bigints_cons. lia.
  - rewrite !sum_bigints_cons, IH by lia. lia.
Qed.

Lemma findIndex_Some {A : Type} (p : A -> bool) (d : A) (l : list A) (k : nat) :
  findIndex p l = Some k ->
  (k < List.length l)%nat /\ p (nth k l d) = true /\
  forall j, (j < k)%nat -> p (nth j l d) = false.
Proof.
  revert k. induction l as [|a l IH]; intros k; simpl; [discriminate|].
  destruct (p a) eqn:Hpa.
  - intros [= <-]. repeat split; auto; intros; lia.
  - destruct (findIndex p l) as [k'|]; simpl; [|discriminate].
    intros [= <-]. destruct (IH k' eq_refl) as (Hlt & Hk & Hbefore).
    repeat split; [lia | assumption |].
    intros [|j] Hj; [assumption | apply Hbefore; lia].
Qed.

Lemma findIndex_None {A : Type} (p : A -> bool) (l : list A) :
  findIndex p l = None -> Forall (fun a => p a = false) l.
Proof.
  induction l as [|a l IH]; simpl; intros H; [constructor|].
  destruct (p a) eqn:Hpa; [discriminate|].
  destruct (findIndex p l); [discriminate|]. constructor; auto.
Qed.

Lemma mapM_Forall2 {A B : Type} (f : A -> Completion B) (l : list A)
  (bs : list B) :
  mapM f l = Normal bs -> Forall2 (fun a b => f a = Normal b) l bs.
Proof.
  revert bs. induction l as [|a l IH]; intros bs; simpl.
  - intros [= <-]. constructor.
  - destruct (f a) as [b|e] eqn:Hfa; simpl; [|discriminate].
    destruct (mapM f l) as [bs'|e]; simpl; [|discriminate].
    intros [= <-]. constructor; auto.
Qed.

Lemma Forall2_mapM {A B : Type} (f : A -> Completion B) (l : list A)
  (bs : list B) :
  Forall2 (fun a b => f a = Normal b) l bs -> mapM f l = Normal bs.
Proof.
  induction 1 as [|a b l bs Hab _ IH]; simpl; [reflexivity|].
  rewrite Hab; simpl. rewrite IH. reflexivity.
Qed.

(** ** The adjustment of one side *)

Lemma findIndex_nonzero_None (l : list Z) :
  findIndex (fun v => negb (v =? 0)) l = None -> allZero l.
Proof.
  intros H. apply findIndex_None in H. unfold allZero.
  eapply Forall_impl; [|exact H]. simpl. intros v Hv.
  apply negb_false_iff, Z.eqb_eq in Hv. exact Hv.
Qed.

Lemma allZero_not_someNonZero (l : list Z) :
  allZero l -> ~ someNonZero l.
Proof.
  intros Hall (v & Hin & Hv). unfold allZero in Hall.
  rewrite Forall_forall in Hall. auto.
Qed.

Lemma adjustSide_length (l : list Z) :
  List.length (adjustSide l) = List.length l.
Proof.
  unfold adjustSide. destruct (findIndex _ l); [apply array_set_length|reflexivity].
Qed.

(** Once some entry is non-zero the adjusted side sums to the precision,
    whatever the truncated values were. *)
Lemma adjustSide_sum (l : list Z) :
  someNonZero (adjustSide l) -> sum_bigints (adjustSide l) = PRECISION_BI.
Proof.
  unfold adjustSide.
  destruct (findIndex (fun v => negb (v =? 0)) l) as [k|] eqn:Hk.
  - intros _. destruct (findIndex_Some _ 0 _ _ Hk) as (Hlt & _ & _).
    rewrite sum_array_set by assumption. lia.
  - intros Hnz. exfalso.
    exact (allZero_not_someNonZero _ (findIndex_nonzero_None _ Hk) Hnz).
Qed.

(** An entry that was ["0"] before the adjustment is ["0"] after it. *)
Lemma adjustSide_keeps_zero (l : list Z) (i : nat) :
  nth i l 0 = 0 -> nth i (adjustSide l) 0 = 0.
Proof.
  intros Hi. unfold adjustSide.
  destruct (findIndex (fun v => negb (v =? 0)) l) as [k|] eqn:Hk; [|exact Hi].
  destruct (findIndex_Some _ 0 _ _ Hk) as (_ & Hnz & _).
  rewrite nth_array_set_other; [exact Hi|].
  intros ->. rewrite Hi in Hnz. discriminate.
Qed.

(** ** Shape of the plan *)

Lemma offsets_eq : map (fun i => i - numBins / 2) (indices numBins) = offsets.
Proof. reflexivity. Qed.

Lemma sideWeightsX_offsets (w : list float) :
  sideWeightsX offsets w =
  [0; 0; 0; 0; 0; get w 5 / 2; get w 6; get w 7; get w 8; get w 9]%float.
Proof. reflexivity. Qed.

Lemma sideWeightsY_offsets (w : list float) :
  sideWeightsY offsets w =
  [get w 0; get w 1; get w 2; get w 3; get w 4; get w 5 / 2; 0; 0; 0; 0]%float.
Proof. reflexivity. Qed.

Lemma normalizeEntry_zero (s : float) : normalizeEntry s 0%float = Normal 0.
Proof. reflexivity. Qed.

Ltac invert_Forall2 :=
  repeat match goal with
    | H : Forall2 _ (_ :: _) _ |- _ => inversion H; subst; clear H
    | H : Forall2 _ [] _ |- _ => inversion H; subst; clear H
    | H : normalizeEntry _ 0%float = Normal _ |- _ =>
        rewrite normalizeEntry_zero in H; injection H as <-
    end.

(** The X side is ["0"] on the five bins below the active one. *)
Lemma truncateSide_X_shape (w : list float) (nX : list Z) :
  truncateSide (sideWeightsX offsets w) = Normal nX ->
  exists a5 a6 a7 a8 a9, nX = [0; 0; 0; 0; 0; a5; a6; a7; a8; a9].
Proof.
  unfold truncateSide. generalize (sum_numbers (sideWeightsX offsets w)).
  rewrite sideWeightsX_offsets. intros s H. apply mapM_Forall2 in H.
  invert_Forall2.
  do 5 eexists. reflexivity.
Qed.

(** The Y side is ["0"] on the four bins above the active one. *)
Lemma truncateSide_Y_shape (w : list float) (nY : list Z) :
  truncateSide (sideWeightsY offsets w) = Normal nY ->
  exists b0 b1 b2 b3 b4 b5, nY = [b0; b1; b2; b3; b4; b5; 0; 0; 0; 0].
Proof.
  unfold truncateSide. generalize (sum_numbers (sideWeightsY offsets w)).
  rewrite sideWeightsY_offsets. intros s H. apply mapM_Forall2 in H.
  invert_Forall2.
  do 6 eexists. reflexivity.
Qed.

Section PlanShape.

Variable Math_exp : float -> float.

(** A returned plan is the adjustment of the two truncated sides. *)
Lemma getDistribution_inv (strategy : string) (plan : BinPlan) :
  getDistribution Math_exp strategy = Normal plan ->
  exists nX nY,
    truncateSide (sideWeightsX offsets (strategyWeights Math_exp strategy))
      = Normal nX /\
    truncateSide (sideWeightsY offsets (strategyWeights Math_exp strategy))
      = Normal nY /\
    plan = mkBinPlan offsets (adjustSide nX) (adjustSide nY) numBins.
Proof.
  unfold getDistribution, planFromWeights. rewrite offsets_eq.
  destruct (normalizeAll _ _) as [nw|e]; simpl; [|discriminate].
  destruct (truncateSide (sideWeightsX _ _)) as [nX|e]; simpl; [|discriminate].
  destruct (truncateSide (sideWeightsY _ _)) as [nY|e]; simpl; [|discriminate].
  intros [= <-]. exists nX, nY. auto.
Qed.

Lemma getDistribution_lengths (strategy : string) (plan : BinPlan) :
  getDistribution Math_exp strategy = Normal plan ->
  deltaIds plan = offsets /\
  List.length (distributionX plan) = 10%nat /\
  List.length (distributionY plan) = 10%nat /\
  planNumBins plan = 10.
Proof.
  intros H. destruct (getDistribution_inv _ _ H) as (nX & nY & HX & HY & ->).
  destruct (truncateSide_X_shape _ _ HX) as (a5 & a6 & a7 & a8 & a9 & ->).
  destruct (truncateSide_Y_shape _ _ HY) as (b0 & b1 & b2 & b3 & b4 & b5 & ->).
  simpl. rewrite !adjustSide_length. auto.
Qed.

End PlanShape.

(** ** What the assumption on Math.exp gives for "curve" *)

Lemma curve_weights (Math_exp : float -> float) :
  strategyWeights Math_exp "curve" =
  [Math_exp (-2)%float; Math_exp (-1.28)%float; Math_exp (-0.72)%float;
   Math_exp (-0.32)%float; Math_exp (-0.08)%float; Math_exp (-0)%float;
   Math_exp (-0.08)%float; Math_exp (-0.32)%float; Math_exp (-0.72)%float;
   Math_exp (-1.28)%float].
Proof. reflexivity. Qed.

Ltac each_ulp H := destruct H as [-> | [-> | ->]].

Lemma curve_plannable (Math_exp : float -> float) :
  faithfulExp Math_exp ->
  weightsPlannable (strategyWeights Math_exp "curve") = true.
Proof.
  intros [H0 H1 H2 H3 H4 H5]. rewrite curve_weights, H0.
  each_ulp H1; each_ulp H2; each_ulp H3; each_ulp H4; each_ulp H5;
    vm_compute; reflexivity.
Qed.

Lemma strategy_plannable (Math_exp : float -> float) (s : StrategyType) :
  faithfulExp Math_exp ->
  weightsPlannable (strategyWeights Math_exp (strategy_string s)) = true.
Proof.
  intros H. destruct s; simpl strategy_string.
  - vm_compute; reflexivity.
  - apply curve_plannable, H.
  - vm_compute; reflexivity.
Qed.

Lemma expTable_nearest :
  forallb nearestToExp [-2; -1.28; -0.72; -0.32; -0.08]%float = true.
Proof. vm_compute. reflexivity. Qed.

Lemma expTable_faithful : faithfulExp expTable.
Proof.
  constructor; try reflexivity; right; left; reflexivity.
Qed.

Ltac show_faithful :=
  constructor; try reflexivity; right; left; reflexivity.

(** Under the assumption on Math.exp, [getDistribution] returns a plan for
    each of the three strategies, and the truncated sides it adjusts are
    non-zero where [weightsPlannable] says. *)
Lemma getDistribution_returns (Math_exp : float -> float) (s : StrategyType) :
  faithfulExp Math_exp ->
  exists nX nY,
    truncateSide
      (sideWeightsX offsets (strategyWeights Math_exp (strategy_string s)))
      = Normal nX /\
    truncateSide
      (sideWeightsY offsets (strategyWeights Math_exp (strategy_string s)))
      = Normal nY /\
    getDistribution Math_exp (strategy_string s)
      = Normal (mkBinPlan offsets (adjustSide nX) (adjustSide nY) numBins) /\
    0 < nth 5 nX 0 /\ 0 < nth 5 nY 0 /\ 0 < nth 0 nY 0.
Proof.
  intros H. pose proof (strategy_plannable Math_exp s H) as Hp.
  unfold weightsPlannable in Hp.
  unfold getDistribution, planFromWeights. rewrite offsets_eq.
  change (Z.to_nat (numBins / 2)) with 5%nat.
  destruct (normalizeAll _ 5) as [nw|e]; [|discriminate].
  destruct (truncateSide (sideWeightsX _ _)) as [nX|e]; [|discriminate].
  destruct (truncateSide (sideWeightsY _ _)) as [nY|e]; [|discriminate].
  apply andb_true_iff in Hp as [Hp H0]. apply andb_true_iff in Hp as [H5X H5Y].
  apply Z.ltb_lt in H0, H5X, H5Y.
  exists nX, nY. simpl. repeat split; assumption || reflexivity.
Qed.

Lemma nth_In_nonzero (l : list Z) (i : nat) :
  nth i l 0 <> 0 -> someNonZero l.
Proof.
  intros H. exists (nth i l 0). split; [|exact H].
  destruct (Nat.lt_ge_cases i (List.length l)) as [Hlt|Hge].
  - apply nth_In, Hlt.
  - rewrite nth_overflow in H by exact Hge. congruence.
Qed.

(** ** C1: each side sums to the precision *)

(** For any plan [getDistribution] returns, whatever the strategy string
    and whatever Math.exp computes: a side with a non-zero entry sums to
    [PRECISION_BI]. *)
Lemma returned_sides_sum (Math_exp : float -> float) (strategy : string)
  (plan : BinPlan) :
  getDistribution Math_exp strategy = Normal plan ->
  (someNonZero (distributionX plan) ->
   sum_bigints (distributionX plan) = PRECISION_BI) /\
  (someNonZero (distributionY plan) ->
   sum_bigints (distributionY plan) = PRECISION_BI).
Proof.
  intros H. destruct (getDistribution_inv _ _ _ H) as (nX & nY & _ & _ & ->).
  simpl. split; apply adjustSide_sum.
Qed.

(** C1.  For each of the strategies "spot", "curve" and "bidask",
    [getDistribution] returns a plan in which [distributionX] sums to
    exactly 10^18 if any of its entries is non-zero, and likewise
    [distributionY]. *)
Theorem sides_sum_to_precision (Math_exp : float -> float) (s : StrategyType) :
  faithfulExp Math_exp ->
  exists plan,
    getDistribution Math_exp (strategy_string s) = Normal plan /\
    (someNonZero (distributionX plan) ->
     sum_bigints (distributionX plan) = 10 ^ 18) /\
    (someNonZero (distributionY plan) ->
     sum_bigints (distributionY plan) = 10 ^ 18).
Proof.
  intros H.
  destruct (getDistribution_returns Math_exp s H) as (nX & nY & _ & _ & Hg & _).
  eexists. split; [exact Hg|].
  change (10 ^ 18) with PRECISION_BI.
  exact (returned_sides_sum _ _ _ Hg).
Qed.

Lemma sides_sum_to_precision_witness :
  exists plan,
    getDistribution expTable "bidask" = Normal plan /\
    (someNonZero (distributionX plan) ->
     sum_bigints (distributionX plan) = 10 ^ 18) /\
    (someNonZero (distributionY plan) ->
     sum_bigints (distributionY plan) = 10 ^ 18).
Proof.
  apply (sides_sum_to_precision expTable bidask). show_faithful.
Defined.

(** ** C2: which side a bin may carry *)

Lemma returned_sides_exclusive (Math_exp : float -> float) (strategy : string)
  (plan : BinPlan) (i : nat) :
  getDistribution Math_exp strategy = Normal plan ->
  (i < List.length (deltaIds plan))%nat -> sideRule plan i.
Proof.
  intros H Hi.
  destruct (getDistribution_inv _ _ _ H) as (nX & nY & HX & HY & ->).
  destruct (truncateSide_X_shape _ _ HX) as (a5 & a6 & a7 & a8 & a9 & ->).
  destruct (truncateSide_Y_shape _ _ HY) as (b0 & b1 & b2 & b3 & b4 & b5 & ->).
  unfold sideRule. simpl deltaIds in *. simpl distributionX. simpl distributionY.
  assert (HzX : forall j, (j < 5)%nat ->
            nth j (adjustSide [0; 0; 0; 0; 0; a5; a6; a7; a8; a9]) 0 = 0).
  { intros j Hj. apply adjustSide_keeps_zero.
    do 5 (destruct j as [|j]; [reflexivity|]). lia. }
  assert (HzY : forall j, (5 < j < 10)%nat ->
            nth j (adjustSide [b0; b1; b2; b3; b4; b5; 0; 0; 0; 0]) 0 = 0).
  { intros j Hj. apply adjustSide_keeps_zero.
    do 6 (destruct j as [|j]; [lia|]).
    do 4 (destruct j as [|j]; [reflexivity|]). lia. }
  simpl in Hi.
  do 10 (destruct i as [|i];
         [ repeat split; intros; simpl in *; try lia;
           try (rewrite HzX in * by lia; lia);
           try (rewrite HzY in * by lia; lia)
         | ]).
  simpl in Hi. lia.
Qed.

(** C2.  For each strategy and every index [i] of the returned plan:
    a negative [deltaIds[i]] forces [distributionX[i] = 0], a positive one
    forces [distributionY[i] = 0], both sides can be positive only where
    [deltaIds[i] = 0], and that holds at index 5 and nowhere else. *)
Theorem sides_exclusive (Math_exp : float -> float) (s : StrategyType) :
  faithfulExp Math_exp ->
  exists plan,
    getDistribution Math_exp (strategy_string s) = Normal plan /\
    forall i, (i < List.length (deltaIds plan))%nat -> sideRule plan i.
Proof.
  intros H.
  destruct (getDistribution_returns Math_exp s H) as (nX & nY & _ & _ & Hg & _).
  eexists. split; [exact Hg|].
  intros i Hi. exact (returned_sides_exclusive _ _ _ i Hg Hi).
Qed.

Lemma sides_exclusive_witness :
  exists plan,
    getDistribution expTable "curve" = Normal plan /\
    forall i, (i < List.length (deltaIds plan))%nat -> sideRule plan i.
Proof.
  apply (sides_exclusive expTable curve). show_faithful.
Defined.

(** ** C7: the bin offsets *)

(** C7.  The returned [deltaIds] has [deltaIds[i] = i - floor(numBins/2)]
    for every [i] in [0 .. numBins-1]; with [numBins = 10] it is
    [-5 .. 4], its only zero is at index 5, and the three arrays of the
    plan have the same length. *)
Theorem deltaIds_sequence (Math_exp : float -> float) (s : StrategyType) :
  faithfulExp Math_exp ->
  exists plan,
    getDistribution Math_exp (strategy_string s) = Normal plan /\
    (forall i, 0 <= i < numBins ->
       nth_error (deltaIds plan) (Z.to_nat i) = Some (i - numBins / 2)) /\
    deltaIds plan = [-5; -4; -3; -2; -1; 0; 1; 2; 3; 4] /\
    (forall i, nth_error (deltaIds plan) i = Some 0 <-> i = 5%nat) /\
    List.length (deltaIds plan) = Z.to_nat numBins /\
    List.length (deltaIds plan) = List.length (distributionX plan) /\
    List.length (distributionX plan) = List.length (distributionY plan).
Proof.
  intros H.
  destruct (getDistribution_returns Math_exp s H) as (nX & nY & _ & _ & Hg & _).
  eexists. split; [exact Hg|].
  destruct (getDistribution_lengths _ _ _ Hg) as (Hids & HlX & HlY & _).
  rewrite HlX, HlY, Hids.
  split; [|split; [reflexivity|split; [|repeat split]]].
  - intros i Hi. unfold numBins in *.
    assert (Hc : i = 0 \/ i = 1 \/ i = 2 \/ i = 3 \/ i = 4 \/ i = 5 \/
                 i = 6 \/ i = 7 \/ i = 8 \/ i = 9) by lia.
    repeat (destruct Hc as [-> | Hc]; [reflexivity|]). subst i. reflexivity.
  - intros i. split; [|intros ->; reflexivity].
    do 10 (destruct i as [|i];
           [simpl; intros Hn; first [reflexivity | discriminate Hn]|]).
    simpl. destruct i; discriminate.
Qed.

Lemma deltaIds_sequence_witness :
  exists plan,
    getDistribution expTable "spot" = Normal plan /\
    (forall i, 0 <= i < numBins ->
       nth_error (deltaIds plan) (Z.to_nat i) = Some (i - numBins / 2)) /\
    deltaIds plan = [-5; -4; -3; -2; -1; 0; 1; 2; 3; 4] /\
    (forall i, nth_error (deltaIds plan) i = Some 0 <-> i = 5%nat) /\
    List.length (deltaIds plan) = Z.to_nat numBins /\
    List.length (deltaIds plan) = List.length (distributionX plan) /\
    List.length (distributionX plan) = List.length (distributionY plan).
Proof.
  apply (deltaIds_sequence expTable spot). show_faithful.
Defined.

(** ** C5: what the planner does with inputs outside its domain *)

(** X19.  A string none of the three [case] labels matches leaves [weights]
    empty; the first normalisation then maps over nothing, the loop reads
    [undefined] ten times, and [BigInt] throws on the NaN the active bin
    produces in [weightsX.map]. *)
Lemma unrecognized_strategy_throws (Math_exp : float -> float)
  (strategy : string) :
  strategy <> "spot"%string -> strategy <> "curve"%string ->
  strategy <> "bidask"%string ->
  strategyWeights Math_exp strategy = [] /\
  normalizeAll (strategyWeights Math_exp strategy) 5 = Normal [] /\
  getDistribution Math_exp strategy = Throw RangeError.
Proof.
  intros Hs Hc Hb.
  assert (Hw : strategyWeights Math_exp strategy = []).
  { unfold strategyWeights.
    apply String.eqb_neq in Hs, Hc, Hb. rewrite Hs, Hc, Hb. reflexivity. }
  unfold getDistribution. rewrite Hw. repeat split; reflexivity.
Qed.

(** C5, as stated, fails: given the unrecognized strategy "martingale" the
    planner does not raise InvalidStrategy before computing; it completes
    the first normalisation and throws a RangeError from a [BigInt]
    conversion inside the X-side normalisation. *)
Lemma fail_fast_counterexample :
  ~ raises "InvalidStrategy" (getDistribution expTable "martingale") /\
  normalizeAll (strategyWeights expTable "martingale") 5 = Normal [] /\
  truncateSide (sideWeightsX offsets (strategyWeights expTable "martingale"))
    = Throw RangeError /\
  getDistribution expTable "martingale" = Throw RangeError.
Proof.
  assert (Hg : getDistribution expTable "martingale" = Throw RangeError)
    by reflexivity.
  repeat split; try reflexivity.
  intros (e & He & Hname). rewrite Hg in He. injection He as <-.
  discriminate Hname.
Qed.

(** C5, amended.  [getDistribution] takes the strategy only: the bin
    count is the constant 10, which is positive, and every call on one of
    the three values of [StrategyType] returns a ten-bin plan and raises
    nothing; the errors the runtime can throw at all are RangeError and
    TypeError, never InvalidBinCount or InvalidStrategy. *)
Theorem planner_total_on_strategies (Math_exp : float -> float)
  (s : StrategyType) :
  faithfulExp Math_exp ->
  (exists plan,
     getDistribution Math_exp (strategy_string s) = Normal plan /\
     planNumBins plan = numBins /\
     List.length (deltaIds plan) = Z.to_nat numBins) /\
  0 < numBins /\
  (forall name, ~ raises name (getDistribution Math_exp (strategy_string s))) /\
  (forall strategy,
     ~ raises "InvalidBinCount" (getDistribution Math_exp strategy) /\
     ~ raises "InvalidStrategy" (getDistribution Math_exp strategy)).
Proof.
  intros H.
  destruct (getDistribution_returns Math_exp s H) as (nX & nY & _ & _ & Hg & _).
  split; [|split; [reflexivity|split]].
  - eexists. split; [exact Hg|]. split; reflexivity.
  - intros name (e & He & _). rewrite Hg in He. discriminate He.
  - intros strategy.
    split; intros (e & _ & Hname); destruct e; discriminate Hname.
Qed.

Lemma planner_total_on_strategies_witness :
  (exists plan,
     getDistribution expTable "curve" = Normal plan /\
     planNumBins plan = numBins /\
     List.length (deltaIds plan) = Z.to_nat numBins) /\
  0 < numBins /\
  (forall name, ~ raises name (getDistribution expTable "curve")) /\
  (forall strategy,
     ~ raises "InvalidBinCount" (getDistribution expTable strategy) /\
     ~ raises "InvalidStrategy" (getDistribution expTable strategy)).
Proof.
  apply (planner_total_on_strategies expTable curve). show_faithful.
Defined.

(** ** C6: the plan of the "spot" strategy *)

Lemma getDistribution_spot (Math_exp : float -> float) :
  getDistribution Math_exp "spot" = Normal spotPlan.
Proof. vm_compute. reflexivity. Qed.

(** C6, as stated, fails: the five negative-offset bins of the "spot"
    plan do not carry equal [distributionY] values; the bin at index 0
    differs from the bin at index 1. *)
Lemma spot_equal_Y_counterexample :
  exists plan,
    getDistribution expTable "spot" = Normal plan /\
    nth 0 (deltaIds plan) 0 < 0 /\ nth 1 (deltaIds plan) 0 < 0 /\
    nth 0 (distributionY plan) 0 <> nth 1 (distributionY plan) 0.
Proof.
  exists spotPlan. split; [apply getDistribution_spot|].
  simpl. repeat split; lia.
Qed.

(** C6, amended.  With "spot" the plan has the offsets [-5 .. 4]; zero
    [distributionX] on the five negative-offset bins; non-zero
    [distributionY] on all five of them, equal on offsets -4 .. -1 and
    larger by the Y remainder 5 * 10^9 on offset -5, the first non-zero Y
    entry; zero [distributionY] and equal non-zero [distributionX] on the
    four positive-offset bins; half of the unit raw weight on each side of
    the zero-offset bin; and both sides sum to exactly 10^18. *)
Theorem spot_plan (Math_exp : float -> float) :
  exists plan,
    getDistribution Math_exp "spot" = Normal plan /\
    deltaIds plan = [-5; -4; -3; -2; -1; 0; 1; 2; 3; 4] /\
    firstn 5 (distributionX plan) = repeat 0 5 /\
    firstn 5 (distributionY plan) =
      181818181000000000 + 5 * 10 ^ 9 :: repeat 181818181000000000 4 /\
    skipn 6 (distributionY plan) = repeat 0 4 /\
    skipn 6 (distributionX plan) = repeat 222222222000000000 4 /\
    get (strategyWeights Math_exp "spot") 5 = 1%float /\
    nth 5 (sideWeightsX offsets (strategyWeights Math_exp "spot")) nan
      = 0.5%float /\
    nth 5 (sideWeightsY offsets (strategyWeights Math_exp "spot")) nan
      = 0.5%float /\
    sum_bigints (distributionX plan) = 10 ^ 18 /\
    sum_bigints (distributionY plan) = 10 ^ 18.
Proof.
  exists spotPlan. split; [apply getDistribution_spot|].
  repeat split; reflexivity.
Qed.

(** ** C4: which entry absorbs the truncation remainder *)

Lemma adjustSide_first_nonzero (n : list Z) :
  (allZero n /\ adjustSide n = n) \/ exists k, absorbsAt n (adjustSide n) k.
Proof.
  unfold adjustSide.
  destruct (findIndex (fun v => negb (v =? 0)) n) as [k|] eqn:Hk.
  - right. exists k.
    destruct (findIndex_Some _ 0 _ _ Hk) as (Hlt & Hnz & Hbefore).
    unfold absorbsAt. repeat split.
    + intros Hz. rewrite Hz in Hnz. discriminate.
    + intros j Hj. specialize (Hbefore j Hj).
      apply negb_false_iff, Z.eqb_eq in Hbefore. exact Hbefore.
    + apply nth_array_set_same, Hlt.
    + intros j Hj. apply nth_array_set_other. congruence.
    + apply array_set_length.
  - left. split; [apply findIndex_nonzero_None, Hk | reflexivity].
Qed.

Lemma absorbsAt_unique (n d : list Z) (k k' : nat) :
  absorbsAt n d k -> absorbsAt n d k' -> k = k'.
Proof.
  intros (Hk & Hbk & _) (Hk' & Hbk' & _).
  destruct (Nat.lt_trichotomy k k') as [Hlt | [Heq | Hgt]]; [|exact Heq|].
  - exfalso. apply Hk, Hbk', Hlt.
  - exfalso. apply Hk', Hbk, Hgt.
Qed.

(** The absorbing index of a side whose entry at [k] is positive and whose
    entries before [k] are ["0"]. *)
Lemma adjustSide_absorbs (n : list Z) (k : nat) :
  0 < nth k n 0 -> (forall j, (j < k)%nat -> nth j n 0 = 0) ->
  absorbsAt n (adjustSide n) k.
Proof.
  intros Hk Hbefore.
  destruct (adjustSide_first_nonzero n) as [[Hall _] | [k' Habs]].
  - exfalso. apply (allZero_not_someNonZero n Hall).
    apply (nth_In_nonzero n k). lia.
  - destruct Habs as (Hk' & Hbk' & Hrest).
    destruct (Nat.lt_trichotomy k k') as [Hlt | [Heq | Hgt]].
    + specialize (Hbk' k Hlt). lia.
    + subst k'. split; [exact Hk'|]. split; [exact Hbk'|exact Hrest].
    + exfalso. apply Hk', Hbefore, Hgt.
Qed.

(** C4, as stated, fails on the Y side: with "spot" the truncated Y side
    has a non-zero active-bin entry (index 5) and a remainder of
    5 * 10^9, yet the returned [distributionY] is not what the
    active-bin-first rule gives: the active-bin entry is returned
    unchanged and the remainder sits on index 0. *)
Lemma remainder_rule_counterexample :
  truncateSide (sideWeightsY offsets (strategyWeights expTable "spot"))
    = Normal spotTruncatedY /\
  getDistribution expTable "spot" = Normal spotPlan /\
  nth 5 (deltaIds spotPlan) 1 = 0 /\
  nth 5 spotTruncatedY 0 <> 0 /\
  PRECISION_BI - sum_bigints spotTruncatedY = 5000000000 /\
  distributionY spotPlan <> adjustSide_activeFirst 5 spotTruncatedY /\
  nth 5 (distributionY spotPlan) 0 = nth 5 spotTruncatedY 0 /\
  nth 0 (distributionY spotPlan) 0 = nth 0 spotTruncatedY 0 + 5000000000.
Proof.
  repeat split; try (vm_compute; reflexivity); vm_compute; discriminate.
Qed.

(** C4, amended.  On each side the truncation remainder
    [PRECISION_BI - sum] is added to exactly one entry, the first
    non-zero entry of that side in index order, and to none when the side
    is all zero.  For each of the three strategies that entry is the
    active-bin entry (index 5) on the X side, whose five earlier entries
    are zero, and the entry of the lowest bin (index 0, offset -5) on the
    Y side. *)
Theorem remainder_to_first_nonzero (Math_exp : float -> float)
  (s : StrategyType) :
  faithfulExp Math_exp ->
  (forall n,
     (allZero n /\ adjustSide n = n) \/
     (exists k, absorbsAt n (adjustSide n) k /\
                forall k', absorbsAt n (adjustSide n) k' -> k' = k)) /\
  exists nX nY plan,
    truncateSide
      (sideWeightsX offsets (strategyWeights Math_exp (strategy_string s)))
      = Normal nX /\
    truncateSide
      (sideWeightsY offsets (strategyWeights Math_exp (strategy_string s)))
      = Normal nY /\
    getDistribution Math_exp (strategy_string s) = Normal plan /\
    absorbsAt nX (distributionX plan) 5 /\
    absorbsAt nY (distributionY plan) 0.
Proof.
  intros H. split.
  - intros n. destruct (adjustSide_first_nonzero n) as [Hz | [k Hk]];
      [left; exact Hz | right].
    exists k. split; [exact Hk|].
    intros k' Hk'. exact (absorbsAt_unique _ _ _ _ Hk' Hk).
  - destruct (getDistribution_returns Math_exp s H)
      as (nX & nY & HX & HY & Hg & H5X & _ & H0Y).
    exists nX, nY. eexists. split; [exact HX|]. split; [exact HY|].
    split; [exact Hg|]. simpl.
    destruct (truncateSide_X_shape _ _ HX) as (a5 & a6 & a7 & a8 & a9 & ->).
    split; apply adjustSide_absorbs; try assumption.
    + intros j Hj. do 5 (destruct j as [|j]; [reflexivity|]). lia.
    + intros j Hj. lia.
Qed.

Lemma remainder_to_first_nonzero_witness :
  (forall n,
     (allZero n /\ adjustSide n = n) \/
     (exists k, absorbsAt n (adjustSide n) k /\
                forall k', absorbsAt n (adjustSide n) k' -> k' = k)) /\
  exists nX nY plan,
    truncateSide (sideWeightsX offsets (strategyWeights expTable "bidask"))
      = Normal nX /\
    truncateSide (sideWeightsY offsets (strategyWeights expTable "bidask"))
      = Normal nY /\
    getDistribution expTable "bidask" = Normal plan /\
    absorbsAt nX (distributionX plan) 5 /\
    absorbsAt nY (distributionY plan) 0.
Proof.
  apply (remainder_to_first_nonzero expTable bidask). show_faithful.
Defined.

(** ** C3: the distributions submitted to addLiquidity *)

Lemma adjustSide_sum_of_nonzero (n : list Z) :
  someNonZero n -> sum_bigints (adjustSide n) = PRECISION_BI.
Proof.
  intros Hnz. unfold adjustSide.
  destruct (findIndex (fun v => negb (v =? 0)) n) as [k|] eqn:Hk.
  - destruct (findIndex_Some _ 0 _ _ Hk) as (Hlt & _ & _).
    rewrite sum_array_set by assumption. lia.
  - exfalso.
    exact (allZero_not_someNonZero _ (findIndex_nonzero_None _ Hk) Hnz).
Qed.

Lemma length_ten {A : Type} (l : list A) :
  List.length l = 10%nat ->
  exists x0 x1 x2 x3 x4 x5 x6 x7 x8 x9,
    l = [x0; x1; x2; x3; x4; x5; x6; x7; x8; x9].
Proof.
  intros H. do 10 (destruct l as [|? l]; [discriminate H|]).
  destruct l; [|discriminate H]. do 10 eexists. reflexivity.
Qed.

(** The adjusted X side keeps its five leading zeros, the adjusted Y side
    its four trailing ones. *)
Lemma adjusted_X_shape (a5 a6 a7 a8 a9 : Z) :
  exists x5 x6 x7 x8 x9,
    adjustSide [0; 0; 0; 0; 0; a5; a6; a7; a8; a9]
    = [0; 0; 0; 0; 0; x5; x6; x7; x8; x9].
Proof.
  pose proof (adjustSide_length [0; 0; 0; 0; 0; a5; a6; a7; a8; a9]) as Hl.
  pose proof (fun i => adjustSide_keeps_zero
                         [0; 0; 0; 0; 0; a5; a6; a7; a8; a9] i) as Hz.
  destruct (length_ten _ Hl)
    as (x0 & x1 & x2 & x3 & x4 & x5 & x6 & x7 & x8 & x9 & Heq).
  rewrite Heq in *.
  pose proof (Hz 0%nat eq_refl) as H0. pose proof (Hz 1%nat eq_refl) as H1.
  pose proof (Hz 2%nat eq_refl) as H2. pose proof (Hz 3%nat eq_refl) as H3.
  pose proof (Hz 4%nat eq_refl) as H4. simpl in H0, H1, H2, H3, H4. subst.
  do 5 eexists. reflexivity.
Qed.

Lemma adjusted_Y_shape (b0 b1 b2 b3 b4 b5 : Z) :
  exists y0 y1 y2 y3 y4 y5,
    adjustSide [b0; b1; b2; b3; b4; b5; 0; 0; 0; 0]
    = [y0; y1; y2; y3; y4; y5; 0; 0; 0; 0].
Proof.
  pose proof (adjustSide_length [b0; b1; b2; b3; b4; b5; 0; 0; 0; 0]) as Hl.
  pose proof (fun i => adjustSide_keeps_zero
                         [b0; b1; b2; b3; b4; b5; 0; 0; 0; 0] i) as Hz.
  destruct (length_ten _ Hl)
    as (y0 & y1 & y2 & y3 & y4 & y5 & y6 & y7 & y8 & y9 & Heq).
  rewrite Heq in *.
  pose proof (Hz 6%nat eq_refl) as H6. pose proof (Hz 7%nat eq_refl) as H7.
  pose proof (Hz 8%nat eq_refl) as H8. pose proof (Hz 9%nat eq_refl) as H9.
  simpl in H6, H7, H8, H9. subst.
  do 6 eexists. reflexivity.
Qed.

(** C3.  For each strategy, the distributions [handleAddLiquidity] puts
    into the addLiquidity parameters are, bin by bin, the sum
    [distributionX[i] + distributionY[i]] of the plan, given to X when
    [deltaIds[i] >= 0] and to Y when [deltaIds[i] < 0]; so the submitted
    Y entry of the active bin is zero, the submitted X side sums to 10^18
    plus the plan's active-bin Y entry, and the submitted Y side to 10^18
    minus it. *)
Theorem submitted_distributions (Math_exp : float -> float) (s : StrategyType) :
  faithfulExp Math_exp ->
  exists plan params,
    getDistribution Math_exp (strategy_string s) = Normal plan /\
    liquidityDistributions plan = Normal params /\
    paramDeltaIds params = deltaIds plan /\
    (forall i, (i < List.length (deltaIds plan))%nat ->
       submittedRule plan params i) /\
    nth 5 (deltaIds plan) 1 = 0 /\
    nth 5 (paramDistributionY params) 1 = 0 /\
    sum_bigints (paramDistributionX params)
      = 10 ^ 18 + nth 5 (distributionY plan) 0 /\
    sum_bigints (paramDistributionY params)
      = 10 ^ 18 - nth 5 (distributionY plan) 0.
Proof.
  intros H.
  destruct (getDistribution_returns Math_exp s H)
    as (nX & nY & HX & HY & Hg & H5X & H5Y & _).
  assert (HsX : sum_bigints (adjustSide nX) = PRECISION_BI).
  { apply adjustSide_sum_of_nonzero, (nth_In_nonzero nX 5). lia. }
  assert (HsY : sum_bigints (adjustSide nY) = PRECISION_BI).
  { apply adjustSide_sum_of_nonzero, (nth_In_nonzero nY 5). lia. }
  destruct (truncateSide_X_shape _ _ HX) as (a5 & a6 & a7 & a8 & a9 & ->).
  destruct (truncateSide_Y_shape _ _ HY) as (b0 & b1 & b2 & b3 & b4 & b5 & ->).
  destruct (adjusted_X_shape a5 a6 a7 a8 a9)
    as (x5 & x6 & x7 & x8 & x9 & HeX).
  destruct (adjusted_Y_shape b0 b1 b2 b3 b4 b5)
    as (y0 & y1 & y2 & y3 & y4 & y5 & HeY).
  rewrite HeX, HeY in *. clear HeX HeY HX HY.
  change (10 ^ 18) with PRECISION_BI.
  unfold sum_bigints in HsX, HsY. simpl in HsX, HsY.
  eexists. eexists. split; [exact Hg|].
  split; [cbv -[Z.add]; reflexivity|].
  split; [reflexivity|].
  split.
  - intros i Hi. simpl in Hi. unfold submittedRule.
    do 10 (destruct i as [|i]; [cbv -[Z.add Z.le Z.lt]; split; intros; lia|]).
    lia.
  - cbv -[Z.add Z.sub PRECISION_BI]. repeat split; lia.
Qed.

Lemma submitted_distributions_witness :
  exists plan params,
    getDistribution expTable "curve" = Normal plan /\
    liquidityDistributions plan = Normal params /\
    paramDeltaIds params = deltaIds plan /\
    (forall i, (i < List.length (deltaIds plan))%nat ->
       submittedRule plan params i) /\
    nth 5 (deltaIds plan) 1 = 0 /\
    nth 5 (paramDistributionY params) 1 = 0 /\
    sum_bigints (paramDistributionX params)
      = 10 ^ 18 + nth 5 (distributionY plan) 0 /\
    sum_bigints (paramDistributionY params)
      = 10 ^ 18 - nth 5 (distributionY plan) 0.
Proof.
  apply (submitted_distributions expTable curve). show_faithful.
Defined.

(** ** C8: how much of the "curve" weight sits next to the active bin *)

Lemma curve_shares (Math_exp : float -> float) :
  faithfulExp Math_exp ->
  curveShares (strategyWeights Math_exp "curve") = true.
Proof.
  intros [H0 H1 H2 H3 H4 H5]. rewrite curve_weights, H0.
  each_ulp H1; each_ulp H2; each_ulp H3; each_ulp H4; each_ulp H5;
    vm_compute; reflexivity.
Qed.

(** C8, as stated, fails: with the nearest-binary64 exponential the two
    bins adjacent to the active bin carry less than half of the total raw
    weight of the "curve" strategy. *)
Lemma curve_adjacent_half_counterexample :
  ~ ((1 # 2) * sumQ (strategyWeights expTable "curve")
     <= adjacentWeight (strategyWeights expTable "curve"))%Q.
Proof.
  apply Qlt_not_le. vm_compute. reflexivity.
Qed.

(** C8, amended.  For "curve" with [numBins = 10] every raw weight
    [Math.exp(-(i-5)^2 / 12.5)] is finite; the two bins adjacent to the
    active bin together carry at least 30% and less than 50% of the total
    raw weight; at least 50% is carried by the five bins at offsets
    -2 .. 2. *)
Theorem curve_concentration (Math_exp : float -> float) :
  faithfulExp Math_exp ->
  let w := strategyWeights Math_exp "curve" in
  w = map (curveWeight Math_exp numBins) (indices numBins) /\
  forallb isFinite w = true /\
  ((3 # 10) * sumQ w <= adjacentWeight w)%Q /\
  (adjacentWeight w < (1 # 2) * sumQ w)%Q /\
  ((1 # 2) * sumQ w <= nearWeight w)%Q.
Proof.
  intros H w. pose proof (curve_shares Math_exp H) as Hs.
  fold w in Hs. unfold curveShares in Hs.
  do 3 (apply andb_true_iff in Hs; destruct Hs as [Hs ?]).
  split; [reflexivity|]. split; [assumption|].
  split; [apply Qle_bool_iff; assumption|].
  split; [|apply Qle_bool_iff; assumption].
  apply Qnot_le_lt. intros Hle. apply Qle_bool_iff in Hle.
  match goal with Hn : negb _ = true |- _ => rewrite Hle in Hn; discriminate Hn end.
Qed.

Lemma curve_concentration_witness :
  let w := strategyWeights expTable "curve" in
  w = map (curveWeight expTable numBins) (indices numBins) /\
  forallb isFinite w = true /\
  ((3 # 10) * sumQ w <= adjacentWeight w)%Q /\
  (adjacentWeight w < (1 # 2) * sumQ w)%Q /\
  ((1 # 2) * sumQ w <= nearWeight w)%Q.
Proof.
  apply (curve_concentration expTable). show_faithful.
Defined.

(** ** C9: the "bidask" weights are heaviest at the two ends *)

Lemma In_indices (n i : Z) : In i (indices n) <-> 0 <= i < n.
Proof.
  unfold indices. rewrite in_map_iff. split.
  - intros (k & <- & Hk). apply in_seq in Hk. lia.
  - intros Hi. exists (Z.to_nat i). split; [lia|]. apply in_seq. lia.
Qed.

Lemma bidask_weights (Math_exp : float -> float) :
  strategyWeights Math_exp "bidask" = map (bidaskWeight numBins) (indices numBins).
Proof. reflexivity. Qed.

(** C9.  For "bidask" with the component's [numBins = 10], the raw weight
    [normalized^2 + 0.1] of each end bin ([i = 0] and [i = numBins-1]) is
    strictly greater than the raw weight of every interior bin. *)
Theorem bidask_extremes_heaviest (Math_exp : float -> float) (i : Z) :
  0 < i < numBins - 1 ->
  let w := strategyWeights Math_exp "bidask" in
  get w (Z.to_nat i) = bidaskWeight numBins i /\
  (get w (Z.to_nat i) <? get w 0)%float = true /\
  (get w (Z.to_nat i) <? get w (Z.to_nat (numBins - 1)))%float = true.
Proof.
  intros Hi w. subst w. rewrite bidask_weights. unfold numBins in *.
  assert (Hc : i = 1 \/ i = 2 \/ i = 3 \/ i = 4 \/ i = 5 \/ i = 6 \/
               i = 7 \/ i = 8) by lia.
  repeat (destruct Hc as [-> | Hc]; [repeat split; vm_compute; reflexivity|]).
  subst i. repeat split; vm_compute; reflexivity.
Qed.

Lemma bidask_extremes_heaviest_witness :
  let w := strategyWeights expTable "bidask" in
  get w (Z.to_nat 3) = bidaskWeight numBins 3 /\
  (get w (Z.to_nat 3) <? get w 0)%float = true /\
  (get w (Z.to_nat 3) <? get w (Z.to_nat (numBins - 1)))%float = true.
Proof.
  apply (bidask_extremes_heaviest expTable 3). unfold numBins. lia.
Defined.

(** X24.  The same comparison for every bin count from 5 to 200, on the
    weight formula itself. *)
Lemma bidask_extremes_heaviest_5_to_200 (n i : Z) :
  5 <= n <= 200 -> 0 < i < n - 1 ->
  (bidaskWeight n i <? bidaskWeight n 0)%float = true /\
  (bidaskWeight n i <? bidaskWeight n (n - 1))%float = true.
Proof.
  intros Hn Hi.
  assert (Hall : forallb (fun k => endsHeaviest (k + 5)) (indices 196) = true)
    by (vm_compute; reflexivity).
  rewrite forallb_forall in Hall.
  specialize (Hall (n - 5)). rewrite In_indices in Hall.
  replace (n - 5 + 5) with n in Hall by lia.
  specialize (Hall ltac:(lia)). unfold endsHeaviest in Hall.
  rewrite forallb_forall in Hall.
  specialize (Hall (i - 1)). rewrite In_indices in Hall.
  replace (i - 1 + 1) with i in Hall by lia.
  specialize (Hall ltac:(lia)). apply andb_true_iff in Hall. exact Hall.
Qed.

(** ** C10: the planner is deterministic and has no side effect *)

(** *** The memo cell *)

Section Determinism.

Variable Math_exp : float -> float.

(** A memo cell always holds the plan of the strategy it was computed
    for. *)
Lemma rendered_value (c : MemoCell) :
  rendered Math_exp c -> memoValue c = getDistribution Math_exp (memoDeps c).
Proof.
  induction 1 as [strategy | c strategy Hc IH]; simpl; [reflexivity|].
  destruct (String.eqb (memoDeps c) strategy); [exact IH | reflexivity].
Qed.

Lemma useMemo_value (c : MemoCell) (strategy : string) :
  rendered Math_exp c ->
  memoValue (useMemo Math_exp (Some c) strategy)
  = getDistribution Math_exp strategy.
Proof.
  intros Hc. simpl.
  destruct (String.eqb (memoDeps c) strategy) eqn:He; [|reflexivity].
  apply String.eqb_eq in He. rewrite <- He. apply rendered_value, Hc.
Qed.

End Determinism.

(** *** The callback on a store

    [getDistributionOnStore] ends as [getDistribution] does, on every
    store, and changes nothing of what the store held when it was
    entered.  The arrays the callback allocates are numbered in the order
    of allocation: [deltaIds] is 0, the declared [weights] 1, the array a
    [case] of the [switch] assigns 2, [normalizedWeights] 3, and so on. *)

Lemma deltaIds_numbers :
  map (fun i => (Number i - Math_floor (Number numBins / 2))%float)
    (indices numBins)
  = [-5; -4; -3; -2; -1; 0; 1; 2; 3; 4]%float.
Proof. vm_compute. reflexivity. Qed.

Lemma deltaIds_bigints :
  mapM BigInt [-5; -4; -3; -2; -1; 0; 1; 2; 3; 4]%float = Normal offsets.
Proof. vm_compute. reflexivity. Qed.

Lemma bindExec_run {A B : Type} (m : Exec A) (k : A -> Exec B) (s : Store) :
  bindExec m k s
  = match m s with
    | (Normal a, s') => k a s'
    | (Throw e, s') => (Throw e, s')
    end.
Proof. reflexivity. Qed.

(** [arr.map(cb)] leaves one more array, and nothing else changed. *)
Lemma mapToStrings_run (cb : float -> Completion Z) (r : Ref) (s : Store)
  (l : list float) :
  cellAt s r = Some (NumberArray l) ->
  mapToStrings cb r s
  = match mapM cb l with
    | Normal out =>
        (Normal (Fresh (List.length (fresh s))),
         mkStore (existing s) (effects s)
           (array_set (fresh s ++ [StringArray []]) (List.length (fresh s))
              (StringArray out)))
    | Throw e =>
        (Throw e,
         mkStore (existing s) (effects s) (fresh s ++ [StringArray []]))
    end.
Proof.
  intros Hr. unfold mapToStrings, bindExec, readNumbers. rewrite Hr.
  cbn [allocate lift update ret fresh existing effects].
  destruct (mapM cb l); reflexivity.
Qed.

Lemma bigintAt_run (r : Ref) (i : nat) (s : Store) (l : list Z) :
  cellAt s r = Some (StringArray l) ->
  bigintAt r i s = (BigInt_of_entry (nth_error l i), s).
Proof.
  intros Hr. unfold bigintAt, bindExec, readStrings. rewrite Hr. reflexivity.
Qed.

(** The assignment at lines 363 and 368, at an index inside the array. *)
Lemma adjustAt_run (r : Ref) (k : nat) (currentSum : Z) (s : Store)
  (l : list Z) :
  cellAt s r = Some (StringArray l) -> (k < List.length l)%nat ->
  adjustAt r (Some k) currentSum s
  = update r
      (StringArray (array_set l k (nth k l 0 + (PRECISION_BI - currentSum))))
      s.
Proof.
  intros Hr Hk. unfold adjustAt, bigintAt, setString, bindExec, readStrings.
  rewrite Hr. cbn [lift]. rewrite (nth_error_nth' l 0 Hk).
  cbn [BigInt_of_entry]. rewrite Hr. reflexivity.
Qed.

(** The loop at lines 312-329 fills [weightsX] and [weightsY] and touches
    nothing else. *)
Lemma split_loop (W : list float) (c1 c3 c4 c5 : Cell)
  (arrays : list Cell) (done : list Effect) :
  forEach (indices numBins)
    (splitStep (Fresh 0) (Fresh 2) (Fresh 6) (Fresh 7))
    (mkStore arrays done
       [NumberArray [-5; -4; -3; -2; -1; 0; 1; 2; 3; 4]%float;
        c1; NumberArray W; c3; c4; c5; NumberArray []; NumberArray []])
  = (Normal tt,
     mkStore arrays done
       [NumberArray [-5; -4; -3; -2; -1; 0; 1; 2; 3; 4]%float;
        c1; NumberArray W; c3; c4; c5;
        NumberArray [0; 0; 0; 0; 0; get W 5 / 2; get W 6; get W 7; get W 8;
                     get W 9]%float;
        NumberArray [get W 0; get W 1; get W 2; get W 3; get W 4;
                     get W 5 / 2; 0; 0; 0; 0]%float]).
Proof. reflexivity. Qed.

(** Reading a returned object whose three references designate arrays. *)
Lemma planOf_run (s : Store) (o : PlanObject) (ids : list float)
  (dX dY : list Z) :
  cellAt s (objDeltaIds o) = Some (NumberArray ids) ->
  cellAt s (objDistributionX o) = Some (StringArray dX) ->
  cellAt s (objDistributionY o) = Some (StringArray dY) ->
  planOf s o
  = offs <- mapM BigInt ids ;; Normal (mkBinPlan offs dX dY (objNumBins o)).
Proof.
  intros Hi HX HY. unfold planOf, bindExec, readNumbers, readStrings, lift.
  rewrite Hi. destruct (mapM BigInt ids); [|reflexivity].
  rewrite HX, HY. reflexivity.
Qed.

(** Straight-line statements are run by computation. *)
Ltac run_store :=
  cbn [bind bindExec allocate readNumbers readStrings update pushNumber
       numberAt bigintAt setString ret lift cellAt adjustAt fresh existing
       effects List.length app nth_error array_set BigInt_of_entry fst snd].

Ltac map_step :=
  rewrite bindExec_run;
  match goal with
  | |- context [mapToStrings ?cb ?r ?s] =>
      rewrite (mapToStrings_run cb r s _ eq_refl)
  end.

Ltac adjust_step H :=
  rewrite bindExec_run;
  match goal with
  | |- context [adjustAt ?r (findIndex ?p ?l) ?c ?s] =>
      let k := fresh "k" in
      destruct (findIndex p l) as [k|] eqn:H;
      [ rewrite (adjustAt_run r k c s l eq_refl
                   (proj1 (findIndex_Some p 0 l k H)))
      | ];
      run_store
  end.

(** Lines 305-371, on the store the statements before them leave when a
    [case] of the [switch] was taken. *)
Lemma planFromWeightsOnStore_refines (W : list float) (c1 c3 : Cell)
  (arrays : list Cell) (done : list Effect)
  (run : Completion PlanObject * Store) :
  run =
    planFromWeightsOnStore (Fresh 0) (Fresh 2)
      (mkStore arrays done
         [NumberArray [-5; -4; -3; -2; -1; 0; 1; 2; 3; 4]%float;
          c1; NumberArray W; c3]) ->
  existing (snd run) = arrays /\ effects (snd run) = done /\
  outcome run = planFromWeights offsets W.
Proof.
  unfold planFromWeightsOnStore. run_store.
  rewrite bindExec_run, split_loop. run_store.
  unfold planFromWeights, truncateSide.
  rewrite sideWeightsX_offsets, sideWeightsY_offsets.
  map_step. destruct (mapM _ _) as [nX|e]; run_store;
    [|intros ->; repeat split; reflexivity].
  map_step. destruct (mapM _ _) as [nY|e]; run_store;
    [|intros ->; repeat split; reflexivity].
  unfold adjustSide.
  adjust_step HX; adjust_step HY; intros ->; (repeat split; try reflexivity);
    unfold outcome; cbn [fst snd];
    rewrite (planOf_run _ _ _ _ _ eq_refl eq_refl eq_refl), deltaIds_bigints;
    reflexivity.
Qed.

(** Lines 282-299 leave one more array behind, [normalizedWeights], and
    end as [normalizeAll] does. *)
Lemma normalizeAllOnStore_run (W : list float) (c1 : Cell)
  (arrays : list Cell) (done : list Effect) :
  exists c3,
    normalizeAllOnStore (Fresh 2) 5
      (mkStore arrays done
         [NumberArray [-5; -4; -3; -2; -1; 0; 1; 2; 3; 4]%float;
          c1; NumberArray W])
    = (_ <- normalizeAll W 5 ;; Normal tt,
       mkStore arrays done
         [NumberArray [-5; -4; -3; -2; -1; 0; 1; 2; 3; 4]%float;
          c1; NumberArray W; c3]).
Proof.
  unfold normalizeAllOnStore, normalizeAll. run_store. map_step.
  destruct (mapM _ W) as [nw|e]; run_store; [|eexists; reflexivity].
  destruct (negb _ && _); run_store; [|eexists; reflexivity].
  match goal with
  | |- context [BigInt_of_entry ?entry] => destruct entry
  end; run_store; eexists; reflexivity.
Qed.

Lemma body_refines (W : list float) (arrays : list Cell) (done : list Effect)
  (run : Completion PlanObject * Store) :
  run =
    (_ <~ normalizeAllOnStore (Fresh 2) 5 ;;
     planFromWeightsOnStore (Fresh 0) (Fresh 2))
      (mkStore arrays done
         [NumberArray [-5; -4; -3; -2; -1; 0; 1; 2; 3; 4]%float;
          NumberArray []; NumberArray W]) ->
  existing (snd run) = arrays /\ effects (snd run) = done /\
  outcome run = (_ <- normalizeAll W 5 ;; planFromWeights offsets W).
Proof.
  rewrite bindExec_run.
  destruct (normalizeAllOnStore_run W (NumberArray []) arrays done)
    as [c3 ->].
  destruct (normalizeAll W 5) as [nw|e]; cbn [bind].
  - apply planFromWeightsOnStore_refines.
  - intros ->. repeat split; reflexivity.
Qed.

Section StoreFacts.

Variable Math_exp : float -> float.

(** The whole callback, entered with no array of its own yet. *)
Lemma getDistributionOnStore_refines (scope : Scope) (arrays : list Cell)
  (done : list Effect) (run : Completion PlanObject * Store) :
  run = getDistributionOnStore Math_exp scope (mkStore arrays done []) ->
  existing (snd run) = arrays /\ effects (snd run) = done /\
  outcome run = getDistribution Math_exp (scopeStrategy scope).
Proof.
  unfold getDistributionOnStore, getDistribution, switchWeights,
    strategyWeights.
  rewrite deltaIds_numbers, offsets_eq.
  change (Z.to_nat (numBins / 2)) with 5%nat.
  destruct (String.eqb (scopeStrategy scope) "spot");
    [run_store; apply body_refines|].
  destruct (String.eqb (scopeStrategy scope) "curve");
    [run_store; apply body_refines|].
  destruct (String.eqb (scopeStrategy scope) "bidask");
    [run_store; apply body_refines|].
  run_store. intros ->. vm_compute. repeat split; reflexivity.
Qed.

(** C10.  Two invocations of the callback with the same [strategy],
    whatever the rest of the component state and whatever the arrays and
    the effects that exist when each is entered, end in the same way: both
    throw the same error, or both return plans that agree in [deltaIds],
    [distributionX] and [distributionY].  Neither changes an array that
    existed when it was entered, and neither performs an effect: every
    array that is pushed onto or assigned into was allocated by the
    invocation itself.  The common outcome is the value of the function
    [getDistribution] at the strategy. *)
Theorem getDistribution_deterministic_and_pure (scope1 scope2 : Scope)
  (arrays1 arrays2 : list Cell) (done1 done2 : list Effect) :
  scopeStrategy scope1 = scopeStrategy scope2 ->
  let run1 :=
    getDistributionOnStore Math_exp scope1 (mkStore arrays1 done1 []) in
  let run2 :=
    getDistributionOnStore Math_exp scope2 (mkStore arrays2 done2 []) in
  outcome run1 = outcome run2 /\
  (forall plan1 plan2,
     outcome run1 = Normal plan1 -> outcome run2 = Normal plan2 ->
     deltaIds plan1 = deltaIds plan2 /\
     distributionX plan1 = distributionX plan2 /\
     distributionY plan1 = distributionY plan2) /\
  existing (snd run1) = arrays1 /\ effects (snd run1) = done1 /\
  existing (snd run2) = arrays2 /\ effects (snd run2) = done2 /\
  outcome run1 = getDistribution Math_exp (scopeStrategy scope1).
Proof.
  intros Hsame run1 run2.
  destruct (getDistributionOnStore_refines scope1 arrays1 done1 run1 eq_refl)
    as (Ha1 & Hd1 & Ho1).
  destruct (getDistributionOnStore_refines scope2 arrays2 done2 run2 eq_refl)
    as (Ha2 & Hd2 & Ho2).
  rewrite <- Hsame in Ho2.
  repeat split; try assumption; try congruence.
Qed.

End StoreFacts.

Lemma getDistribution_deterministic_and_pure_witness :
  let run1 :=
    getDistributionOnStore expTable (mkScope "curve" exampleForm)
      (mkStore [NumberArray [1%float]; StringArray [7]]
         [ConsoleLog "mounted"] []) in
  let run2 :=
    getDistributionOnStore expTable
      (mkScope "curve" blankForm) (mkStore [] [] []) in
  outcome run1 = outcome run2 /\
  (forall plan1 plan2,
     outcome run1 = Normal plan1 -> outcome run2 = Normal plan2 ->
     deltaIds plan1 = deltaIds plan2 /\
     distributionX plan1 = distributionX plan2 /\
     distributionY plan1 = distributionY plan2) /\
  existing (snd run1) = [NumberArray [1%float]; StringArray [7]] /\
  effects (snd run1) = [ConsoleLog "mounted"] /\
  existing (snd run2) = [] /\ effects (snd run2) = [] /\
  outcome run1 = getDistribution expTable "curve".
Proof.
  apply (getDistribution_deterministic_and_pure expTable
           (mkScope "curve" exampleForm)
           (mkScope "curve" blankForm)
           [NumberArray [1%float]; StringArray [7]] []
           [ConsoleLog "mounted"] []).
  reflexivity.
Defined.

(** * The pool hooks *)

(** ** sortTokens and getAllTokenPairs *)

Lemma ltb_false_leb (s1 s2 : string) :
  String.ltb s1 s2 = false -> String.leb s2 s1 = true.
Proof.
  unfold String.ltb, String.leb. rewrite (String.compare_antisym s1 s2).
  destruct (String.compare s2 s1); simpl; congruence.
Qed.

Lemma ltb_true_leb (s1 s2 : string) :
  String.ltb s1 s2 = true -> String.leb s1 s2 = true.
Proof.
  unfold String.ltb, String.leb. destruct (String.compare s1 s2); congruence.
Qed.

Lemma ltb_irrefl (s : string) : String.ltb s s = false.
Proof.
  unfold String.ltb. pose proof (String.compare_antisym s s) as H.
  destruct (String.compare s s); simpl in H; congruence.
Qed.

Lemma ltb_total (s1 s2 : string) :
  s1 <> s2 -> String.ltb s1 s2 = negb (String.ltb s2 s1).
Proof.
  intros Hne. unfold String.ltb. rewrite (String.compare_antisym s1 s2).
  destruct (String.compare s2 s1) eqn:Hc; simpl; try reflexivity.
  apply String.compare_eq_iff in Hc. congruence.
Qed.

Section PoolFacts.

Variable toLowerCase : string -> string.

Lemma sortTokens_cases (tokenA tokenB : string) :
  let pair := sortTokens toLowerCase tokenA tokenB in
  (pair = mkTokenPair tokenA tokenB \/ pair = mkTokenPair tokenB tokenA) /\
  String.leb (toLowerCase (pairTokenX pair)) (toLowerCase (pairTokenY pair))
  = true.
Proof.
  unfold sortTokens.
  destruct (String.ltb (toLowerCase tokenA) (toLowerCase tokenB)) eqn:Hlt;
    simpl; split; auto.
  - apply ltb_true_leb, Hlt.
  - apply ltb_false_leb, Hlt.
Qed.

(** X1.  The pair [sortTokens] returns holds its two arguments, the one whose
    lower-cased form is not the larger as [tokenX]. *)
Theorem sortTokens_sorted (tokenA tokenB : string) :
  let pair := sortTokens toLowerCase tokenA tokenB in
  (pair = mkTokenPair tokenA tokenB \/ pair = mkTokenPair tokenB tokenA) /\
  String.leb (toLowerCase (pairTokenX pair)) (toLowerCase (pairTokenY pair))
  = true.
Proof. exact (sortTokens_cases tokenA tokenB). Qed.

(** X2.  [sortTokens] gives the same pair for both argument orders exactly
    when the two addresses are equal or differ after lower-casing; two
    spellings of one address that differ only in case come back in the
    order opposite to the one they were passed in, whichever is passed
    first. *)
Theorem sortTokens_order_independent (tokenA tokenB : string) :
  (sortTokens toLowerCase tokenA tokenB = sortTokens toLowerCase tokenB tokenA
   <-> (tokenA = tokenB \/ toLowerCase tokenA <> toLowerCase tokenB)) /\
  (toLowerCase tokenA = toLowerCase tokenB ->
   sortTokens toLowerCase tokenA tokenB = mkTokenPair tokenB tokenA /\
   sortTokens toLowerCase tokenB tokenA = mkTokenPair tokenA tokenB).
Proof.
  unfold sortTokens. split.
  - destruct (string_dec (toLowerCase tokenA) (toLowerCase tokenB))
      as [He|Hne].
    + rewrite He, ltb_irrefl. split.
      * intros [= -> _]. left; reflexivity.
      * intros [-> | Hc]; [reflexivity | congruence].
    + rewrite (ltb_total _ _ Hne).
      destruct (String.ltb (toLowerCase tokenB) (toLowerCase tokenA)); simpl;
        split; auto.
  - intros He. rewrite He, ltb_irrefl. split; reflexivity.
Qed.

Lemma tokenPairsFrom_length (tokens : list Token) :
  (2 * List.length (tokenPairsFrom toLowerCase tokens)
   = List.length tokens * (List.length tokens - 1))%nat.
Proof.
  induction tokens as [|t rest IH]; simpl; [reflexivity|].
  rewrite length_app, length_map. nia.
Qed.

Lemma tokenPairsFrom_In (tokens : list Token) (pair : TokenPair) :
  In pair (tokenPairsFrom toLowerCase tokens) ->
  exists ti tj, In ti tokens /\ In tj tokens /\
    pair = sortTokens toLowerCase (address ti) (address tj).
Proof.
  induction tokens as [|t rest IH]; simpl; [tauto|].
  rewrite in_app_iff, in_map_iff. intros [(tj & <- & Hj) | Hin].
  - exists t, tj. auto.
  - destruct (IH Hin) as (ti & tj & Hi & Hj & ->). exists ti, tj. auto.
Qed.

Lemma tokenPairsFrom_complete (tokens : list Token) (i j : nat) (ti tj : Token) :
  (i < j)%nat -> nth_error tokens i = Some ti -> nth_error tokens j = Some tj ->
  In (sortTokens toLowerCase (address ti) (address tj))
    (tokenPairsFrom toLowerCase tokens).
Proof.
  revert i j. induction tokens as [|t rest IH]; intros i j Hij Hi Hj.
  - destruct i; discriminate.
  - simpl. rewrite in_app_iff. destruct j as [|j]; [lia|]. simpl in Hj.
    destruct i as [|i]; simpl in Hi.
    + injection Hi as ->. left. apply in_map_iff. exists tj.
      split; [reflexivity|]. eapply nth_error_In, Hj.
    + right. apply (IH i j); [lia | assumption | assumption].
Qed.

(** X3.  [getAllTokenPairs] lists n(n-1)/2 pairs for n known tokens: for any
    two positions i < j the sorted pair of the two addresses, and nothing
    but sorted pairs of addresses of known tokens. *)
Theorem getAllTokenPairs_all_pairs (TOKENS : list Token) :
  (2 * List.length (getAllTokenPairs toLowerCase TOKENS)
   = List.length TOKENS * (List.length TOKENS - 1))%nat /\
  (forall i j ti tj, (i < j)%nat ->
     nth_error TOKENS i = Some ti -> nth_error TOKENS j = Some tj ->
     In (sortTokens toLowerCase (address ti) (address tj))
       (getAllTokenPairs toLowerCase TOKENS)) /\
  (forall pair, In pair (getAllTokenPairs toLowerCase TOKENS) ->
     In (pairTokenX pair) (map address TOKENS) /\
     In (pairTokenY pair) (map address TOKENS) /\
     String.leb (toLowerCase (pairTokenX pair)) (toLowerCase (pairTokenY pair))
     = true).
Proof.
  unfold getAllTokenPairs. split; [apply tokenPairsFrom_length|].
  split; [intros i j ti tj; apply tokenPairsFrom_complete|].
  intros pair Hin.
  destruct (tokenPairsFrom_In _ _ Hin) as (ti & tj & Hi & Hj & ->).
  pose proof (sortTokens_cases (address ti) (address tj)) as [Hor Hle].
  split; [|split; [|exact Hle]].
  - destruct Hor as [-> | ->]; simpl; apply in_map; assumption.
  - destruct Hor as [-> | ->]; simpl; apply in_map; assumption.
Qed.

End PoolFacts.

(** ** poolAddresses *)

Lemma flatMapM_In {A B : Type} (f : A -> Completion (list B)) (l : list A)
  (bs : list B) (b : B) :
  flatMapM f l = Normal bs -> In b bs ->
  exists a bs', In a l /\ f a = Normal bs' /\ In b bs'.
Proof.
  revert bs. induction l as [|a l IH]; intros bs; simpl.
  - intros [= <-] [].
  - destruct (f a) as [bs1|e] eqn:Hfa; simpl; [|discriminate].
    destruct (flatMapM f l) as [bs2|e]; simpl; [|discriminate].
    intros [= <-] Hin. apply in_app_iff in Hin as [Hin | Hin].
    + exists a, bs1. auto.
    + destruct (IH bs2 eq_refl Hin) as (a' & bs' & Ha' & Hf & Hb).
      exists a', bs'. auto.
Qed.

Lemma flatMapM_returns {A B : Type} (f : A -> Completion (list B)) (l : list A) :
  (forall a, In a l -> exists bs, f a = Normal bs) ->
  exists bs, flatMapM f l = Normal bs.
Proof.
  induction l as [|a l IH]; intros Hall; simpl; [eexists; reflexivity|].
  destruct (Hall a (or_introl eq_refl)) as (bs1 & ->).
  destruct IH as (bs2 & ->); [intros a' Ha'; apply Hall; right; exact Ha'|].
  simpl. eexists; reflexivity.
Qed.

Lemma pushPool_In (pair : option TokenPair) (pairData : PairData)
  (ps : list PoolAddress) (p : PoolAddress) :
  pushPool pair pairData = Normal ps -> In p ps ->
  pairAddress p = lbPair pairData /\
  pairAddress p <> ""%string /\ pairAddress p <> zeroAddress /\
  pair = Some (mkTokenPair (poolTokenX p) (poolTokenY p)) /\
  poolBinStep p = binStep pairData.
Proof.
  unfold pushPool, truthy.
  destruct (String.eqb (lbPair pairData) "") eqn:He;
    [simpl; intros [= <-] []|].
  destruct (String.eqb (lbPair pairData) zeroAddress) eqn:Hz;
    [simpl; intros [= <-] []|].
  simpl. destruct pair as [[x y]|]; [|discriminate].
  intros [= <-] [<- | []]. simpl.
  apply String.eqb_neq in He, Hz. auto.
Qed.

Lemma combine_seq_In {A : Type} (l : list A) (start i : nat) (a : A) :
  In (i, a) (combine (seq start (List.length l)) l) ->
  (start <= i)%nat /\ nth_error l (i - start) = Some a.
Proof.
  revert start. induction l as [|x l IH]; intros start; simpl; [tauto|].
  intros [[= <- <-] | Hin].
  - split; [lia|]. rewrite Nat.sub_diag. reflexivity.
  - destruct (IH _ Hin) as (Hle & Hnth). split; [lia|].
    replace (i - start)%nat with (S (i - S start)) by lia. exact Hnth.
Qed.

(** X4.  When the factory answered at most one result per token pair asked
    for, the [poolAddresses] memo does not throw, and every pool it lists
    has a pair address that is neither empty nor the zero address and
    carries the two tokens of one of the pairs asked for. *)
Theorem poolAddresses_valid (tokenPairs : list TokenPair)
  (results : list (ReadResult (list PairData))) :
  (List.length results <= List.length tokenPairs)%nat ->
  exists poolList,
    poolAddresses tokenPairs (Some results) = Normal poolList /\
    forall p, In p poolList ->
      pairAddress p <> ""%string /\ pairAddress p <> zeroAddress /\
      In (mkTokenPair (poolTokenX p) (poolTokenY p)) tokenPairs.
Proof.
  intros Hlen. unfold poolAddresses.
  destruct (flatMapM_returns (pushPoolsOfResult tokenPairs)
              (combine (seq 0 (List.length results)) results))
    as (poolList & Hpools).
  - intros [i r] Hin. unfold pushPoolsOfResult. simpl.
    destruct r as [pairs|]; [|eexists; reflexivity].
    apply combine_seq_In in Hin as (_ & Hnth).
    assert (Hi : (i < List.length tokenPairs)%nat).
    { rewrite Nat.sub_0_r in Hnth.
      assert (i < List.length results)%nat by (apply nth_error_Some; congruence).
      lia. }
    destruct (nth_error tokenPairs i) as [pair|] eqn:Hpair;
      [|apply nth_error_None in Hpair; lia].
    apply flatMapM_returns. intros pd _. unfold pushPool.
    destruct (truthy _ && negb _); eexists; reflexivity.
  - exists poolList. split; [exact Hpools|]. intros p Hp.
    destruct (flatMapM_In _ _ _ _ Hpools Hp) as ([i r] & ps & _ & Hf & Hin).
    unfold pushPoolsOfResult in Hf. simpl in Hf.
    destruct r as [pairs|]; [|injection Hf as <-; destruct Hin].
    destruct (flatMapM_In _ _ _ _ Hf Hin) as (pd & ps' & _ & Hpush & Hin').
    destruct (pushPool_In _ _ _ _ Hpush Hin') as (_ & Hne & Hnz & Hpair & _).
    repeat split; try assumption. eapply nth_error_In, Hpair.
Qed.

(** ** tokenInfoCalls *)

Lemma Set_add_spec (s : list string) (x y : string) :
  In y (Set_add s x) <-> In y s \/ y = x.
Proof.
  unfold Set_add. destruct (existsb (String.eqb x) s) eqn:He.
  - apply existsb_exists in He as (z & Hz & Hxz). apply String.eqb_eq in Hxz.
    subst z. split; [auto | intros [H | ->]; assumption].
  - rewrite in_app_iff. simpl. split; [intros [H | [<- | []]]; auto
                                      | intros [H | ->]; auto].
Qed.

Lemma Set_add_NoDup (s : list string) (x : string) :
  NoDup s -> NoDup (Set_add s x).
Proof.
  intros Hnd. unfold Set_add. destruct (existsb (String.eqb x) s) eqn:He;
    [exact Hnd|].
  apply NoDup_app; [exact Hnd | repeat constructor; intros [] |].
  intros y Hy [Hxy | []]. subst y.
  assert (Ht : existsb (String.eqb x) s = true).
  { apply existsb_exists. exists x. split; [exact Hy | apply String.eqb_refl]. }
  congruence.
Qed.

Section TokenInfoCallFacts.

Variable toLowerCase : string -> string.

Lemma uniqueTokens_acc (poolList : list PoolAddress) (acc : list string) :
  let s := fold_left
             (fun s pool =>
                Set_add (Set_add s (toLowerCase (poolTokenX pool)))
                  (toLowerCase (poolTokenY pool)))
             poolList acc in
  (NoDup acc -> NoDup s) /\
  forall u, In u s <->
    In u acc \/
    exists pool, In pool poolList /\
      (u = toLowerCase (poolTokenX pool) \/ u = toLowerCase (poolTokenY pool)).
Proof.
  revert acc. induction poolList as [|pool rest IH]; intros acc; simpl.
  - split; [auto|]. intros u. split; [auto | intros [H | (p & [] & _)]; exact H].
  - destruct (IH (Set_add (Set_add acc (toLowerCase (poolTokenX pool)))
                    (toLowerCase (poolTokenY pool)))) as (Hnd & Hin).
    split.
    + intros Hacc. apply Hnd. apply Set_add_NoDup, Set_add_NoDup, Hacc.
    + intros u. rewrite Hin, !Set_add_spec. split.
      * intros [[[H | ->] | ->] | (p & Hp & Hu)]; auto.
        -- right. exists pool. auto.
        -- right. exists pool. auto.
        -- right. exists p. auto.
      * intros [H | (p & [<- | Hp] & Hu)]; auto.
        -- destruct Hu as [-> | ->]; auto.
        -- right. exists p. auto.
Qed.

Lemma info_calls_nth (addrs : list string) (k : nat) (u : string) :
  nth_error addrs k = Some u ->
  let calls := flat_map (fun tokenAddr =>
                 [mkInfoCall tokenAddr "symbol"; mkInfoCall tokenAddr "decimals"])
                 addrs in
  nth_error calls (2 * k) = Some (mkInfoCall u "symbol") /\
  nth_error calls (2 * k + 1) = Some (mkInfoCall u "decimals").
Proof.
  revert k. induction addrs as [|a addrs IH]; intros k Hk.
  - destruct k; discriminate.
  - destruct k as [|k]; simpl in Hk.
    + injection Hk as ->. split; reflexivity.
    + replace (2 * S k)%nat with (S (S (2 * k))) by lia.
      replace (S (S (2 * k)) + 1)%nat with (S (S (2 * k + 1))) by lia.
      simpl. apply (IH k Hk).
Qed.

Lemma info_calls_length (addrs : list string) :
  List.length
    (flat_map (fun tokenAddr =>
                 [mkInfoCall tokenAddr "symbol"; mkInfoCall tokenAddr "decimals"])
       addrs)
  = (2 * List.length addrs)%nat.
Proof.
  induction addrs as [|a l IH]; simpl; [reflexivity|]. rewrite IH. lia.
Qed.

(** X5.  [tokenInfoCalls] asks for each distinct lower-cased token address of
    the pools once: the k-th distinct address gets its [symbol] call at
    index 2k and its [decimals] call at index 2k + 1, which is the layout
    the [tokenInfoMap] loop reads back. *)
Theorem tokenInfoCalls_layout (poolList : list PoolAddress) :
  NoDup (uniqueTokens toLowerCase poolList) /\
  (forall u, In u (uniqueTokens toLowerCase poolList) <->
     exists pool, In pool poolList /\
       (u = toLowerCase (poolTokenX pool) \/ u = toLowerCase (poolTokenY pool))) /\
  List.length (tokenInfoCalls toLowerCase poolList)
  = (2 * List.length (uniqueTokens toLowerCase poolList))%nat /\
  (forall k u, nth_error (uniqueTokens toLowerCase poolList) k = Some u ->
     nth_error (tokenInfoCalls toLowerCase poolList) (2 * k)
     = Some (mkInfoCall u "symbol") /\
     nth_error (tokenInfoCalls toLowerCase poolList) (2 * k + 1)
     = Some (mkInfoCall u "decimals")).
Proof.
  destruct (uniqueTokens_acc poolList []) as (Hnd & Hin).
  split; [apply Hnd; constructor|]. split.
  - intros u. unfold uniqueTokens. rewrite Hin. simpl. tauto.
  - split.
    + apply info_calls_length.
    + intros k u Hk. apply (info_calls_nth _ k u Hk).
Qed.

End TokenInfoCallFacts.

(** ** tokenInfoMap and pools *)

Section TokenInfoFacts.

Variable toLowerCase : string -> string.
Variable TOKENS : list Token.

Lemma Map_has_get {V : Type} (m : list (string * V)) (k : string) :
  Map_has m k = true <-> exists v, Map_get m k = Some v.
Proof.
  unfold Map_has. destruct (Map_get m k) as [v|]; split;
    try (intros; eexists; reflexivity); try discriminate; auto.
  intros (v & Hv). discriminate Hv.
Qed.

Lemma fold_addKnownToken_get (tokens : list Token)
  (m : list (string * TokenInfo)) (key : string) :
  Map_get (fold_left (addKnownToken toLowerCase) tokens m) key
  = match Map_get m key with
    | Some v => Some v
    | None => knownInfo toLowerCase tokens key
    end.
Proof.
  revert m. induction tokens as [|t rest IH]; intros m; simpl.
  - destruct (Map_get m key); reflexivity.
  - rewrite IH. unfold addKnownToken, knownInfo, Map_has. simpl.
    destruct (Map_get m (toLowerCase (address t))) as [v|] eqn:Hm.
    + destruct (Map_get m key) as [v'|] eqn:Hk; [reflexivity|].
      destruct (String.eqb (toLowerCase (address t)) key) eqn:He;
        [|reflexivity].
      apply String.eqb_eq in He. congruence.
    + unfold Map_set. simpl.
      destruct (String.eqb (toLowerCase (address t)) key) eqn:He.
      * apply String.eqb_eq in He. rewrite <- He, Hm. reflexivity.
      * reflexivity.
Qed.

Lemma tokenInfoMap_keys (calls : list InfoCall)
  (tokenInfoResults : option (list (ReadResult string * ReadResult Z)))
  (m : list (string * TokenInfo)) :
  tokenInfoMap toLowerCase TOKENS calls tokenInfoResults = Normal m ->
  forall t, In t TOKENS -> Map_has m (toLowerCase (address t)) = true.
Proof.
  unfold tokenInfoMap.
  destruct (match tokenInfoResults with Some _ => _ | None => _ end)
    as [fetched|e]; simpl; [|discriminate].
  intros [= <-] t Ht. apply Map_has_get. rewrite fold_addKnownToken_get.
  destruct (Map_get fetched _) as [v|]; [eexists; reflexivity|].
  unfold knownInfo.
  destruct (find (fun t0 => String.eqb (toLowerCase (address t0))
                              (toLowerCase (address t))) TOKENS) eqn:Hf.
  - eexists; reflexivity.
  - exfalso. apply (find_none _ _ Hf) in Ht.
    rewrite String.eqb_refl in Ht. discriminate Ht.
Qed.

(** X6.  What [tokenInfoMap] holds for a key: the entry fetched from the chain
    when there is one, otherwise symbol and decimals of the first known
    token with that lower-cased address; so every known token has an
    entry. *)
Theorem tokenInfoMap_entries (calls : list InfoCall)
  (tokenInfoResults : option (list (ReadResult string * ReadResult Z)))
  (m : list (string * TokenInfo)) :
  tokenInfoMap toLowerCase TOKENS calls tokenInfoResults = Normal m ->
  exists fetched,
    match tokenInfoResults with
    | Some results => fetchedTokenInfo toLowerCase calls results 0 []
    | None => Normal []
    end = Normal fetched /\
    (forall key, Map_get m key
                 = match Map_get fetched key with
                   | Some v => Some v
                   | None => knownInfo toLowerCase TOKENS key
                   end) /\
    (forall t, In t TOKENS -> Map_has m (toLowerCase (address t)) = true).
Proof.
  intros Hm.
  pose proof (tokenInfoMap_keys calls tokenInfoResults m Hm) as Hkeys.
  unfold tokenInfoMap in Hm.
  destruct (match tokenInfoResults with Some _ => _ | None => _ end)
    as [fetched|e]; simpl in Hm; [|discriminate].
  injection Hm as <-. exists fetched. split; [reflexivity|].
  split; [intros key; apply fold_addKnownToken_get | exact Hkeys].
Qed.

Lemma fetched_keeps (calls : list InfoCall)
  (results : list (ReadResult string * ReadResult Z)) (k0 : nat)
  (acc m : list (string * TokenInfo)) (key : string) (v : TokenInfo) :
  fetchedTokenInfo toLowerCase calls results k0 acc = Normal m ->
  Map_get acc key = Some v ->
  (forall j call, (j < List.length results)%nat ->
     nth_error calls (2 * (k0 + j)) = Some call ->
     toLowerCase (callAddress call) <> key) ->
  Map_get m key = Some v.
Proof.
  revert k0 acc. induction results as [|[rs rd] results IH];
    intros k0 acc Hf Hacc Hother; cbn [fetchedTokenInfo] in Hf.
  - injection Hf as <-. exact Hacc.
  - assert (Hrest : forall j call, (j < List.length results)%nat ->
              nth_error calls (2 * (S k0 + j)) = Some call ->
              toLowerCase (callAddress call) <> key).
    { intros j call Hj Hc. apply (Hother (S j) call); [simpl; lia|].
      replace (k0 + S j)%nat with (S k0 + j)%nat by lia. exact Hc. }
    destruct rs as [sym|]; [destruct rd as [dec|]|];
      try (apply (IH (S k0) acc Hf Hacc Hrest)).
    destruct (nth_error calls (2 * k0)) as [call|] eqn:Hcall; [|discriminate].
    apply (IH (S k0) _ Hf); [|exact Hrest].
    unfold Map_set. simpl.
    assert (Hne : toLowerCase (callAddress call) <> key).
    { apply (Hother 0%nat call); [simpl; lia|].
      rewrite Nat.add_0_r. exact Hcall. }
    apply String.eqb_neq in Hne. rewrite Hne. exact Hacc.
Qed.

Lemma fetched_lookup (calls : list InfoCall)
  (results : list (ReadResult string * ReadResult Z)) (k0 j : nat)
  (acc m : list (string * TokenInfo)) (call : InfoCall) (sym : string) (dec : Z) :
  fetchedTokenInfo toLowerCase calls results k0 acc = Normal m ->
  nth_error results j = Some (Success sym, Success dec) ->
  nth_error calls (2 * (k0 + j)) = Some call ->
  (forall j' call', j' <> j -> (j' < List.length results)%nat ->
     nth_error calls (2 * (k0 + j')) = Some call' ->
     toLowerCase (callAddress call') <> toLowerCase (callAddress call)) ->
  Map_get m (toLowerCase (callAddress call)) = Some (mkTokenInfo sym dec).
Proof.
  revert k0 j acc. induction results as [|[rs rd] results IH];
    intros k0 j acc Hf Hj Hcall Hother.
  - destruct j; discriminate.
  - destruct j as [|j]; simpl in Hj.
    + injection Hj as -> ->. cbn [fetchedTokenInfo] in Hf.
      rewrite Nat.add_0_r in Hcall. rewrite Hcall in Hf.
      apply (fetched_keeps _ _ _ _ _ _ _ Hf).
      * unfold Map_set. simpl. rewrite String.eqb_refl. reflexivity.
      * intros j' call' Hj' Hc'. apply (Hother (S j') call'); [lia|simpl; lia|].
        replace (k0 + S j')%nat with (S k0 + j')%nat by lia. exact Hc'.
    + assert (Hrest : forall j' call', j' <> j ->
                (j' < List.length results)%nat ->
                nth_error calls (2 * (S k0 + j')) = Some call' ->
                toLowerCase (callAddress call')
                <> toLowerCase (callAddress call)).
      { intros j' call' Hne Hlt Hc'. apply (Hother (S j') call');
          [lia | simpl; lia |].
        replace (k0 + S j')%nat with (S k0 + j')%nat by lia. exact Hc'. }
      replace (k0 + S j)%nat with (S k0 + j)%nat in Hcall by lia.
      cbn [fetchedTokenInfo] in Hf.
      destruct rs as [sym'|]; [destruct rd as [dec'|]|];
        try (apply (IH (S k0) j acc Hf Hj Hcall Hrest)).
      destruct (nth_error calls (2 * k0)) as [call0|]; [|discriminate].
      apply (IH (S k0) j _ Hf Hj Hcall Hrest).
Qed.

Lemma fetched_returns (calls : list InfoCall)
  (results : list (ReadResult string * ReadResult Z)) (k0 : nat)
  (acc : list (string * TokenInfo)) :
  (2 * (k0 + List.length results) <= List.length calls)%nat ->
  exists m, fetchedTokenInfo toLowerCase calls results k0 acc = Normal m.
Proof.
  revert k0 acc. induction results as [|[rs rd] results IH];
    intros k0 acc Hlen; cbn [fetchedTokenInfo List.length] in *;
    [eexists; reflexivity|].
  destruct rs as [sym|]; [destruct rd as [dec|]|];
    try (apply IH; lia).
  destruct (nth_error calls (2 * k0)) as [call|] eqn:Hcall.
  - apply IH. lia.
  - apply nth_error_None in Hcall. lia.
Qed.

Hypothesis toLowerCase_idempotent :
  forall s, toLowerCase (toLowerCase s) = toLowerCase s.

(** X7.  From the pools to the list: when the chain answered the calls of
    [tokenInfoCalls] (at most one symbol/decimals pair of results per
    distinct address), [tokenInfoMap] does not throw, and a pool token
    whose two reads succeeded is listed with the symbol and the decimals
    that were read, whatever the known-token list says. *)
Theorem pools_show_fetched_info (poolList : list PoolAddress)
  (results : list (ReadResult string * ReadResult Z)) :
  (List.length results <= List.length (uniqueTokens toLowerCase poolList))%nat ->
  exists m,
    tokenInfoMap toLowerCase TOKENS (tokenInfoCalls toLowerCase poolList)
      (Some results) = Normal m /\
    forall pool k sym dec,
      nth_error results k = Some (Success sym, Success dec) ->
      (nth_error (uniqueTokens toLowerCase poolList) k
       = Some (toLowerCase (poolTokenX pool)) ->
       infoTokenX (poolInfo toLowerCase m pool)
       = mkPoolToken (poolTokenX pool) sym dec) /\
      (nth_error (uniqueTokens toLowerCase poolList) k
       = Some (toLowerCase (poolTokenY pool)) ->
       infoTokenY (poolInfo toLowerCase m pool)
       = mkPoolToken (poolTokenY pool) sym dec).
Proof.
  intros Hlen.
  destruct (uniqueTokens_acc toLowerCase poolList []) as (Hnd & Hin).
  specialize (Hnd (NoDup_nil _)). fold (uniqueTokens toLowerCase poolList) in *.
  assert (Hcalls : forall k u,
             nth_error (uniqueTokens toLowerCase poolList) k = Some u ->
             nth_error (tokenInfoCalls toLowerCase poolList) (2 * k)
             = Some (mkInfoCall u "symbol")).
  { intros k u Hk. apply (info_calls_nth _ k u Hk). }
  assert (Hclen : List.length (tokenInfoCalls toLowerCase poolList)
                  = (2 * List.length (uniqueTokens toLowerCase poolList))%nat).
  { apply info_calls_length. }
  assert (Hlow : forall u, In u (uniqueTokens toLowerCase poolList) ->
                           toLowerCase u = u).
  { intros u Hu. apply Hin in Hu as [[] | (p & _ & [-> | ->])];
      apply toLowerCase_idempotent. }
  destruct (fetched_returns (tokenInfoCalls toLowerCase poolList) results 0 [])
    as (fetched & Hfetched); [simpl; lia|].
  unfold tokenInfoMap. rewrite Hfetched. simpl. eexists. split; [reflexivity|].
  assert (Hget : forall k u sym dec,
             nth_error results k = Some (Success sym, Success dec) ->
             nth_error (uniqueTokens toLowerCase poolList) k = Some u ->
             Map_get (fold_left (addKnownToken toLowerCase) TOKENS fetched) u
             = Some (mkTokenInfo sym dec)).
  { intros k u sym dec Hres Hu. rewrite fold_addKnownToken_get.
    pose proof (Hlow u (nth_error_In _ _ Hu)) as Hlu.
    assert (Hf : Map_get fetched (toLowerCase (callAddress (mkInfoCall u "symbol")))
                 = Some (mkTokenInfo sym dec)).
    { apply (fetched_lookup _ _ 0 k [] fetched _ sym dec Hfetched Hres).
      - change (0 + k)%nat with k. apply (Hcalls k u Hu).
      - intros j' call' Hne Hlt Hc'. change (0 + j')%nat with j' in Hc'.
        destruct (nth_error (uniqueTokens toLowerCase poolList) j')
          as [u'|] eqn:Hu'; [|apply nth_error_None in Hu'; lia].
        rewrite (Hcalls j' u' Hu') in Hc'. injection Hc' as <-. simpl.
        rewrite (Hlow u' (nth_error_In _ _ Hu')), Hlu. intros ->.
        apply Hne. apply (proj1 (NoDup_nth_error _) Hnd); [|congruence].
        apply nth_error_Some. congruence. }
    simpl in Hf. rewrite Hlu in Hf. rewrite Hf. reflexivity. }
  intros pool k sym dec Hres. split; intros Hu; unfold poolInfo, tokenInfoOr;
    simpl; rewrite (Hget k _ sym dec Hres Hu); reflexivity.
Qed.

(** X8.  A pool over the addresses of two known tokens never shows the
    placeholder entry ("???", 18): both of its tokens are found in
    [tokenInfoMap]. *)
Theorem pools_of_known_tokens_resolved (calls : list InfoCall)
  (tokenInfoResults : option (list (ReadResult string * ReadResult Z)))
  (m : list (string * TokenInfo)) (pool : PoolAddress) :
  tokenInfoMap toLowerCase TOKENS calls tokenInfoResults = Normal m ->
  In (mkTokenPair (poolTokenX pool) (poolTokenY pool))
    (getAllTokenPairs toLowerCase TOKENS) ->
  Map_get m (toLowerCase (poolTokenX pool))
  = Some (mkTokenInfo (ptSymbol (infoTokenX (poolInfo toLowerCase m pool)))
            (ptDecimals (infoTokenX (poolInfo toLowerCase m pool)))) /\
  Map_get m (toLowerCase (poolTokenY pool))
  = Some (mkTokenInfo (ptSymbol (infoTokenY (poolInfo toLowerCase m pool)))
            (ptDecimals (infoTokenY (poolInfo toLowerCase m pool)))).
Proof.
  intros Hm Hpair.
  pose proof (tokenInfoMap_keys calls tokenInfoResults m Hm) as Hhas.
  destruct (tokenPairsFrom_In toLowerCase _ _ Hpair) as (ti & tj & Hi & Hj & He).
  assert (Hx : Map_has m (toLowerCase (poolTokenX pool)) = true /\
               Map_has m (toLowerCase (poolTokenY pool)) = true).
  { unfold sortTokens in He.
    destruct (String.ltb _ _); injection He as -> ->; split; apply Hhas;
      assumption. }
  destruct Hx as [Hx Hy]. apply Map_has_get in Hx as (vx & Hx).
  apply Map_has_get in Hy as (vy & Hy).
  unfold poolInfo, tokenInfoOr. simpl. rewrite Hx, Hy.
  destruct vx, vy. split; reflexivity.
Qed.

End TokenInfoFacts.

(** ** useBinDistribution *)

Lemma indices_nth_error (n i : Z) :
  0 <= i < n -> nth_error (indices n) (Z.to_nat i) = Some i.
Proof.
  intros Hi. unfold indices. rewrite nth_error_map.
  rewrite (nth_error_nth' _ 0%nat) by (rewrite length_seq; lia).
  rewrite seq_nth by lia. simpl. f_equal. lia.
Qed.

Lemma indices_length (n : Z) : List.length (indices n) = Z.to_nat n.
Proof. unfold indices. rewrite length_map, length_seq. reflexivity. Qed.

Lemma nth_error_combine_seq {A : Type} (l : list A) (start i : nat) :
  nth_error (combine (seq start (List.length l)) l) i
  = option_map (fun x => ((start + i)%nat, x)) (nth_error l i).
Proof.
  revert start i. induction l as [|a l IH]; intros start [|i]; simpl;
    try reflexivity.
  - rewrite Nat.add_0_r. reflexivity.
  - rewrite IH. replace (S start + i)%nat with (start + S i)%nat by lia.
    reflexivity.
Qed.

(** Two points of the range of [idsExact], one of them on its border: the
    numbers the source computes are the integers of [binIds].  Beyond it,
    at [activeId = 2^53] with three bins, the last sum rounds and the
    source lists the id 2^53 twice. *)
Lemma binIdNumber_on_the_border :
  map (binIdNumber (2 ^ 53 - 3) 3) (indices 3)
  = map Number (binIds (Some (2 ^ 53 - 3)) 3) /\
  map (binIdNumber 8388608 50) (indices 50)
  = map Number (binIds (Some 8388608) 50).
Proof. split; vm_compute; reflexivity. Qed.

Lemma binIdNumber_rounds_beyond :
  binIdNumber (2 ^ 53) 3 2 = binIdNumber (2 ^ 53) 3 1 /\
  binIdNumber (2 ^ 53) 3 1 = Number (2 ^ 53).
Proof. split; vm_compute; reflexivity. Qed.

(** X9.  With a non-zero active id and a positive bin count, both within
    the range on which the number arithmetic of the source is exact
    ([|activeId| + numBins <= 2^53], at most 2^32 - 1 bins),
    [useBinDistribution] returns exactly [numBins] bins with consecutive
    ids starting at [activeId - floor(numBins / 2)]; the bin at index
    [floor(numBins / 2)] and no other is marked active; a bin whose
    [getBin] read is missing or failed shows zero reserves. *)
Theorem bins_around_active (a numBins : Z)
  (data : option (list (ReadResult (list Z)))) :
  a <> 0 -> 0 < numBins -> idsExact a numBins ->
  List.length (bins (Some a) numBins data) = Z.to_nat numBins /\
  forall i, 0 <= i < numBins ->
    exists b,
      nth_error (bins (Some a) numBins data) (Z.to_nat i) = Some b /\
      binId b = a - numBins / 2 + i /\
      Z.abs (binId b) <= 2 ^ 53 /\
      isActive b = (i =? numBins / 2) /\
      (binReserveX b, binReserveY b)
      = match data with
        | Some d =>
            match nth_error d (Z.to_nat i) with
            | Some (Success r) => (nth 0 r 0, nth 1 r 0)
            | _ => (0, 0)
            end
        | None => (0, 0)
        end.
Proof.
  intros Ha Hn [Hsafe _]. unfold bins, binIds, truthyNum.
  apply Z.eqb_neq in Ha. rewrite Ha. simpl negb. cbv iota.
  split.
  - rewrite length_map, length_combine, length_seq, Nat.min_id, length_map.
    apply indices_length.
  - intros i Hi. rewrite nth_error_map, nth_error_combine_seq, nth_error_map.
    rewrite (indices_nth_error numBins i Hi). simpl. eexists.
    split; [reflexivity|]. unfold binOf. simpl.
    split; [reflexivity|]. split.
    { pose proof (Z.div_pos numBins 2 ltac:(lia) ltac:(lia)).
      pose proof (Z.div_le_upper_bound numBins 2 numBins ltac:(lia)
                    ltac:(lia)).
      lia. }
    split.
    + destruct (Z.eqb_spec i (numBins / 2)) as [-> | Hne].
      * apply Z.eqb_eq. lia.
      * apply Z.eqb_neq. lia.
    + destruct data as [d|]; [|reflexivity].
      destruct (nth_error d (Z.to_nat i)) as [[r|]|]; reflexivity.
Qed.

(** X10.  An active id that is missing or 0 is taken as "no pool": no bin is
    asked for and none is returned, whatever the bin count and the data. *)
Theorem bins_without_active_id (activeId : option Z) (numBins : Z)
  (pair : option string) (data : option (list (ReadResult (list Z)))) :
  truthyNum activeId = false ->
  binIds activeId numBins = [] /\
  binCalls pair activeId numBins = [] /\
  bins activeId numBins data = [].
Proof.
  intros Hfalsy. assert (Hids : binIds activeId numBins = []).
  { unfold binIds. destruct activeId; [rewrite Hfalsy|]; reflexivity. }
  unfold binCalls, bins. rewrite Hids, Hfalsy, andb_false_r. auto.
Qed.

(** * The add-liquidity form and the swap card *)

Lemma quot_nonneg (a b : Z) : 0 <= a -> 0 < b -> a ÷ b = a / b.
Proof. intros Ha Hb. apply Z.quot_div_nonneg; assumption. Qed.

(** X14.  For a non-negative amount the submitted minimum is 95% of it, rounded
    down: never above the amount and less than one unit below the exact
    95%. *)
Theorem slippageMin_bounds (amount : Z) :
  0 <= amount ->
  0 <= slippageMin amount <= amount /\
  95 * amount - 99 <= 100 * slippageMin amount <= 95 * amount.
Proof.
  intros Ha. unfold slippageMin. rewrite quot_nonneg by lia.
  pose proof (Z.div_mod (amount * 95) 100 ltac:(lia)) as Hdm.
  pose proof (Z.mod_pos_bound (amount * 95) 100 ltac:(lia)) as Hmod.
  lia.
Qed.

Section FormFacts.

Variable toLowerCase : string -> string.
Variable TOKENS : list Token.
Variable parseUnits : string -> Z -> option Z.

(** X11.  [resolvePoolToken] answers a pool token with a token that agrees with
    it in lower-cased symbol or, when the pool token has an address, in
    lower-cased address; the answer comes from the known list or keeps
    the pool's symbol, and its decimals are 0 only when the known list
    says so: missing or zero pool decimals become 18. *)
Theorem resolvePoolToken_agrees (p : PoolTokenProp) :
  exists t,
    resolvePoolToken toLowerCase TOKENS (Some p) = Some t /\
    (toLowerCase (symbol t) = toLowerCase (propSymbol p) \/
     exists a, propAddress p = Some a /\ a <> ""%string /\
               toLowerCase (address t) = toLowerCase a) /\
    (In t TOKENS \/
     (symbol t = propSymbol p /\ name t = propSymbol p /\ decimals t <> 0 /\
      forall known, In known TOKENS ->
        matchesPoolToken toLowerCase p known = false)).
Proof.
  unfold resolvePoolToken.
  destruct (find (matchesPoolToken toLowerCase p) TOKENS) as [found|] eqn:Hf.
  - exists found. split; [reflexivity|].
    apply find_some in Hf as [Hin Hm]. split; [|left; exact Hin].
    unfold matchesPoolToken in Hm. apply orb_true_iff in Hm as [Hm | Hm].
    + left. apply String.eqb_eq, Hm.
    + right. destruct (propAddress p) as [a|]; [|discriminate].
      apply andb_true_iff in Hm as [Ht He]. exists a.
      split; [reflexivity|]. split.
      * unfold truthy in Ht. apply negb_true_iff, String.eqb_neq in Ht. exact Ht.
      * apply String.eqb_eq, He.
  - eexists. split; [reflexivity|]. simpl. split; [left; reflexivity|].
    right. repeat split.
    + destruct (propDecimals p) as [d|]; [|discriminate].
      simpl. destruct (Z.eqb_spec d 0); simpl; [discriminate | assumption].
    + intros known Hk. apply (find_none _ _ Hf known Hk).
Qed.

Lemma resolveOrder_cases (tX tY : Token) (amtX amtY : string)
  (cX cY : option string) (order : FinalOrder) :
  resolveOrder toLowerCase tX tY amtX amtY cX cY = Some order ->
  ((finalTokenX order = tX /\ finalAmountX order = amtX /\
    finalTokenY order = tY /\ finalAmountY order = amtY) \/
   (finalTokenX order = tY /\ finalAmountX order = amtY /\
    finalTokenY order = tX /\ finalAmountY order = amtX)) /\
  (truthyOpt cX && truthyOpt cY = true ->
   cX = Some (finalContractTokenX order) /\
   cY = Some (finalContractTokenY order) /\
   (toLowerCase (address tX) = toLowerCase (finalContractTokenX order) \/
    toLowerCase (address tY) = toLowerCase (finalContractTokenX order) ->
    toLowerCase (address (finalTokenX order))
    = toLowerCase (finalContractTokenX order))) /\
  (truthyOpt cX && truthyOpt cY = false ->
   finalContractTokenX order = address (finalTokenX order) /\
   finalContractTokenY order = address (finalTokenY order) /\
   String.leb (toLowerCase (finalContractTokenX order))
     (toLowerCase (finalContractTokenY order)) = true).
Proof.
  assert (Hfb : forall o, fallbackOrder toLowerCase tX tY amtX amtY = Some o ->
            ((finalTokenX o = tX /\ finalAmountX o = amtX /\
              finalTokenY o = tY /\ finalAmountY o = amtY) \/
             (finalTokenX o = tY /\ finalAmountX o = amtY /\
              finalTokenY o = tX /\ finalAmountY o = amtX)) /\
            finalContractTokenX o = address (finalTokenX o) /\
            finalContractTokenY o = address (finalTokenY o) /\
            String.leb (toLowerCase (finalContractTokenX o))
              (toLowerCase (finalContractTokenY o)) = true).
  { intros o. unfold fallbackOrder.
    destruct (truthy (address tX) && truthy (address tY)); [|discriminate].
    destruct (String.ltb _ _) eqn:Hlt; intros [= <-]; simpl.
    - split; [left; auto|]. repeat split. apply ltb_true_leb, Hlt.
    - split; [right; auto|]. repeat split. apply ltb_false_leb, Hlt. }
  unfold resolveOrder.
  destruct cX as [contractX|], cY as [contractY|]; simpl;
    try (intros Ho; destruct (Hfb order Ho) as (Hp & Hrest);
         split; [exact Hp|]; split; [try discriminate; rewrite ?andb_false_r;
                                     discriminate | intros _; exact Hrest]).
  destruct (truthy contractX && truthy contractY) eqn:Hc.
  - destruct (String.eqb (toLowerCase (address tX)) (toLowerCase contractX))
      eqn:He; intros [= <-]; simpl.
    + split; [left; auto|]. split; [|discriminate]. intros _.
      repeat split. intros _. apply String.eqb_eq, He.
    + split; [right; auto|]. split; [|discriminate]. intros _.
      repeat split. intros [Hx | Hy]; [|exact Hy].
      apply String.eqb_neq in He. congruence.
  - intros Ho. destruct (Hfb order Ho) as (Hp & Hrest).
    split; [exact Hp|]. split; [discriminate | intros _; exact Hrest].
Qed.

(** X12.  The token-order block keeps every amount with the token it was typed
    for; with both contract addresses at hand these are passed on as they
    are, and the UI token matching the contract's tokenX (if one does) is
    the final tokenX; without them the two resolved addresses are passed
    on, the smaller lower-cased one as tokenX. *)
Theorem resolveOrder_keeps_pairs (tX tY : Token) (amtX amtY : string)
  (cX cY : option string) (order : FinalOrder) :
  resolveOrder toLowerCase tX tY amtX amtY cX cY = Some order ->
  ((finalTokenX order = tX /\ finalAmountX order = amtX /\
    finalTokenY order = tY /\ finalAmountY order = amtY) \/
   (finalTokenX order = tY /\ finalAmountX order = amtY /\
    finalTokenY order = tX /\ finalAmountY order = amtX)) /\
  (truthyOpt cX && truthyOpt cY = true ->
   cX = Some (finalContractTokenX order) /\
   cY = Some (finalContractTokenY order) /\
   (toLowerCase (address tX) = toLowerCase (finalContractTokenX order) \/
    toLowerCase (address tY) = toLowerCase (finalContractTokenX order) ->
    toLowerCase (address (finalTokenX order))
    = toLowerCase (finalContractTokenX order))) /\
  (truthyOpt cX && truthyOpt cY = false ->
   finalContractTokenX order = address (finalTokenX order) /\
   finalContractTokenY order = address (finalTokenY order) /\
   String.leb (toLowerCase (finalContractTokenX order))
     (toLowerCase (finalContractTokenY order)) = true).
Proof. exact (resolveOrder_cases tX tY amtX amtY cX cY order). Qed.

(** X13.  With both contract addresses at hand and two UI tokens whose
    lower-cased addresses differ, [currentPrice] inverts the pair price
    exactly when [handleAddLiquidity] exchanges the two amounts. *)
Theorem price_inverted_iff_amounts_swapped (tX tY : Token)
  (amtX amtY : string) (cX cY px py : option string) (price : float)
  (order : FinalOrder) :
  truthyOpt cX && truthyOpt cY = true ->
  toLowerCase (address tX) <> toLowerCase (address tY) ->
  truthyNumber price = true ->
  resolveOrder toLowerCase tX tY amtX amtY cX cY = Some order ->
  (priceNeedsSwap toLowerCase tX tY cX cY px py = true /\
   currentPrice toLowerCase (Some tX) (Some tY) (Some price) cX cY px py
   = (1 / price)%float /\
   finalTokenX order = tY /\ finalAmountX order = amtY /\
   finalAmountY order = amtX) \/
  (priceNeedsSwap toLowerCase tX tY cX cY px py = false /\
   currentPrice toLowerCase (Some tX) (Some tY) (Some price) cX cY px py
   = price /\
   finalTokenX order = tX /\ finalAmountX order = amtX /\
   finalAmountY order = amtY).
Proof.
  intros Hc Hne Hp. unfold resolveOrder, currentPrice, priceNeedsSwap, priceTokenX.
  rewrite Hc, Hp.
  destruct cX as [contractX|]; [|discriminate].
  destruct cY as [contractY|]; [|simpl in Hc; rewrite andb_false_r in Hc;
                                  discriminate].
  simpl in Hc. rewrite Hc.
  destruct (String.eqb (toLowerCase (address tX)) (toLowerCase contractX))
    eqn:He; intros [= <-]; simpl.
  - right. rewrite String.eqb_refl. simpl. auto.
  - left. apply String.eqb_neq in Hne. rewrite Hne. simpl. auto.
Qed.

(** X15.  Once the allowance is what [handleApproveX] asks for, 110% of a
    non-negative parsed amount rounded down, the approve button is gone:
    [needsApprovalX] is false for that amount. *)
Theorem approval_covers_amount (amount : string) (t : Token) (parsed : Z) :
  parseUnits amount (decimals t) = Some parsed -> 0 <= parsed ->
  parsed <= approvalAmount parsed /\
  needsApproval parseUnits amount (Some t) (Some (approvalAmount parsed))
  = false.
Proof.
  intros Hparse Hpos.
  assert (Hle : parsed <= approvalAmount parsed).
  { unfold approvalAmount. rewrite quot_nonneg by lia.
    apply Z.div_le_lower_bound; lia. }
  split; [exact Hle|]. unfold needsApproval.
  destruct (truthy amount); [|reflexivity].
  rewrite Hparse. apply Z.ltb_ge, Hle.
Qed.


(** X17.  The guard before the allowance check can never fire: no run of
    [handleAddLiquidity] ends in the "Token bilgileri eksik" toast. *)
Theorem token_info_toast_unreachable (st : FormState) (plan : BinPlan)
  (allowanceXResult allowanceYResult : option Z) (now : Z) :
  handleAddLiquidity toLowerCase parseUnits st plan
    allowanceXResult allowanceYResult now <> ToastTokenInfoMissing.
Proof.
  unfold handleAddLiquidity.
  destruct (tokenX st) as [tX|]; [|discriminate].
  destruct (tokenY st) as [tY|]; [|discriminate].
  destruct (account st) as [to|]; [|discriminate].
  destruct (negb (truthy (amountX st))) eqn:HaX; [discriminate|].
  destruct (negb (truthy (amountY st))) eqn:HaY; [discriminate|].
  simpl. destruct (negb (truthy to)); [discriminate|].
  destruct (truthyOpt (poolPairAddress st) && isLoadingPoolData st);
    [discriminate|].
  destruct (resolveOrder toLowerCase tX tY (amountX st) (amountY st)
              (contractTokenX st) (contractTokenY st)) as [order|] eqn:Horder;
    [|discriminate].
  destruct (resolveOrder_cases _ _ _ _ _ _ _ Horder) as (Hpairs & _).
  assert (Hx : negb (truthy (finalAmountX order)) = false /\
               negb (truthy (finalAmountY order)) = false).
  { destruct Hpairs as [(_ & -> & _ & ->) | (_ & -> & _ & ->)]; auto. }
  destruct Hx as [-> ->]. simpl.
  destruct (parseUnits _ _); [|discriminate].
  destruct (parseUnits _ _); [|discriminate].
  destruct allowanceXResult; [|discriminate].
  destruct allowanceYResult; [|discriminate].
  destruct (_ || _); [discriminate|].
  destruct (buildLiquidityParams _ _ _ _ _ _); discriminate.
Qed.

End FormFacts.

Lemma orElse_nonempty (field : option string) (rest : string) :
  rest <> ""%string -> orElse field rest <> ""%string.
Proof.
  intros Hrest. unfold orElse, truthy. destruct field as [m|]; [|exact Hrest].
  destruct (String.eqb m "") eqn:He; simpl; [exact Hrest|].
  apply String.eqb_neq, He.
Qed.

Lemma orElse_falsy (field : option string) (rest : string) :
  truthyOpt field = false -> orElse field rest = rest.
Proof.
  unfold orElse, truthyOpt. destruct field as [m|]; [|reflexivity].
  intros ->. reflexivity.
Qed.

Lemma orElse_truthy (m rest : string) :
  m <> ""%string -> orElse (Some m) rest = m.
Proof.
  intros Hm. unfold orElse, truthy. apply String.eqb_neq in Hm. rewrite Hm.
  reflexivity.
Qed.

(** X18.  The failure toast never shows an empty description: the message is
    the first non-empty one of [shortMessage], [message], [data.message]
    and [cause.message], in this order, and "Bilinmeyen hata" when there is
    none. *)
Theorem errorMessage_never_empty (error : CaughtError) :
  errorMessage error <> ""%string /\
  (forall m, shortMessage error = Some m -> m <> ""%string ->
     errorMessage error = m) /\
  (forall m, truthyOpt (shortMessage error) = false ->
     message error = Some m -> m <> ""%string ->
     errorMessage error = m) /\
  (forall m, truthyOpt (shortMessage error) = false ->
     truthyOpt (message error) = false ->
     dataMessage error = Some m -> m <> ""%string ->
     errorMessage error = m) /\
  (forall m, truthyOpt (shortMessage error) = false ->
     truthyOpt (message error) = false ->
     truthyOpt (dataMessage error) = false ->
     causeMessage error = Some m -> m <> ""%string ->
     errorMessage error = m) /\
  (truthyOpt (shortMessage error) = false ->
   truthyOpt (message error) = false ->
   truthyOpt (dataMessage error) = false ->
   truthyOpt (causeMessage error) = false ->
   errorMessage error = "Bilinmeyen hata"%string).
Proof.
  unfold errorMessage. repeat split.
  - repeat apply orElse_nonempty. discriminate.
  - intros m -> Hm. apply orElse_truthy, Hm.
  - intros m H1 -> Hm. rewrite (orElse_falsy _ _ H1).
    apply orElse_truthy, Hm.
  - intros m H1 H2 -> Hm.
    rewrite (orElse_falsy _ _ H1), (orElse_falsy _ _ H2).
    apply orElse_truthy, Hm.
  - intros m H1 H2 H3 -> Hm.
    rewrite (orElse_falsy _ _ H1), (orElse_falsy _ _ H2),
      (orElse_falsy _ _ H3).
    apply orElse_truthy, Hm.
  - intros H1 H2 H3 H4.
    rewrite (orElse_falsy _ _ H1), (orElse_falsy _ _ H2),
      (orElse_falsy _ _ H3), (orElse_falsy _ _ H4). reflexivity.
Qed.

(** Pressing the arrow of the swap card twice restores tokens and
    amounts. *)
Theorem handleSwap_twice (st : SwapState) : handleSwap (handleSwap st) = st.
Proof. destruct st. reflexivity. Qed.

(** * More on getDistribution *)

Lemma BigInt_throws_RangeError (x : float) (e : Error) :
  BigInt x = Throw e -> e = RangeError.
Proof.
  unfold BigInt. destruct (Prim2SF x) as [s| s | |s m ex]; try discriminate;
    try (intros [= <-]; reflexivity).
  destruct (0 <=? ex); [discriminate|].
  destruct (signed s m mod 2 ^ (- ex) =? 0); [discriminate|].
  intros [= <-]; reflexivity.
Qed.

Lemma scaleRatio_throws_RangeError (ratio : float) (e : Error) :
  scaleRatio ratio = Throw e -> e = RangeError.
Proof.
  unfold scaleRatio.
  destruct (BigInt (Math_floor (ratio * 1e9)%float)) as [hi|e'] eqn:Hb; simpl.
  - change (BigInt 1e9%float) with (@Normal Z 1000000000). simpl. discriminate.
  - intros [= <-]. exact (BigInt_throws_RangeError _ _ Hb).
Qed.

Lemma scaleRatio_multiple (ratio : float) (v : Z) :
  scaleRatio ratio = Normal v -> (10 ^ 9 | v).
Proof.
  unfold scaleRatio.
  destruct (BigInt (Math_floor (ratio * 1e9)%float)) as [hi|e']; simpl;
    [|discriminate].
  change (BigInt 1e9%float) with (@Normal Z 1000000000). simpl.
  intros [= <-]. exists hi. reflexivity.
Qed.

Lemma mapM_throws {A B : Type} (f : A -> Completion B) (l : list A) (e : Error) :
  (forall a e', f a = Throw e' -> e' = RangeError) ->
  mapM f l = Throw e -> e = RangeError.
Proof.
  intros Hf. induction l as [|a l IH]; simpl; [discriminate|].
  destruct (f a) as [b|e'] eqn:Hfa; simpl.
  - destruct (mapM f l) as [bs|e'']; simpl; [discriminate|].
    intros [= <-]. apply IH. reflexivity.
  - intros [= <-]. exact (Hf a e' Hfa).
Qed.

Lemma mapM_length {A B : Type} (f : A -> Completion B) (l : list A)
  (bs : list B) :
  mapM f l = Normal bs -> List.length bs = List.length l.
Proof.
  intros H. apply mapM_Forall2 in H. symmetry. exact (Forall2_length H).
Qed.

Lemma truncateSide_throws_RangeError (ws : list float) (e : Error) :
  truncateSide ws = Throw e -> e = RangeError.
Proof.
  unfold truncateSide. apply mapM_throws. intros w e'. unfold normalizeEntry.
  destruct (w =? 0)%float; [discriminate|]. apply scaleRatio_throws_RangeError.
Qed.

Lemma strategyWeights_length (Math_exp : float -> float) (strategy : string) :
  List.length (strategyWeights Math_exp strategy) = 10%nat \/
  strategyWeights Math_exp strategy = [].
Proof.
  unfold strategyWeights.
  destruct (String.eqb strategy "spot"); [left; reflexivity|].
  destruct (String.eqb strategy "curve"); [left; reflexivity|].
  destruct (String.eqb strategy "bidask"); [left; reflexivity|].
  right; reflexivity.
Qed.

(** X20.  Whatever the strategy string and whatever [Math.exp] computes, the
    only error [getDistribution] can throw is the RangeError of a
    [BigInt] conversion; the [BigInt(undefined)] TypeError of the first
    normalisation cannot occur. *)
Theorem getDistribution_throws_only_RangeError (Math_exp : float -> float)
  (strategy : string) (e : Error) :
  getDistribution Math_exp strategy = Throw e -> e = RangeError.
Proof.
  unfold getDistribution, planFromWeights. rewrite offsets_eq.
  change (Z.to_nat (numBins / 2)) with 5%nat.
  destruct (normalizeAll (strategyWeights Math_exp strategy) 5)
    as [nw|e'] eqn:Hna; cbn [bind].
  - destruct (truncateSide (sideWeightsX _ _)) as [nX|eX] eqn:HX; cbn [bind].
    + destruct (truncateSide (sideWeightsY _ _)) as [nY|eY] eqn:HY; cbn [bind];
        [discriminate|].
      intros [= <-]. exact (truncateSide_throws_RangeError _ _ HY).
    + intros [= <-]. exact (truncateSide_throws_RangeError _ _ HX).
  - intros [= <-]. unfold normalizeAll in Hna.
    destruct (mapM _ (strategyWeights Math_exp strategy)) as [ns|e1] eqn:Hm;
      cbn [bind] in Hna.
    + pose proof (mapM_length _ _ _ Hm) as Hlen.
      destruct (strategyWeights_length Math_exp strategy) as [H10 | Hnil].
      * rewrite H10 in Hlen.
        destruct (negb _ && _); [|discriminate].
        destruct (nth_error ns 5) as [c|] eqn:Hc; [discriminate|].
        apply nth_error_None in Hc. lia.
      * rewrite Hnil in Hlen. destruct ns; [|discriminate Hlen].
        cbn [List.length Z.of_nat Z.ltb Z.compare] in Hna.
        rewrite andb_false_r in Hna. discriminate.
    + injection Hna as <-.
      apply (mapM_throws _ _ _
               (fun a e' => scaleRatio_throws_RangeError _ e') Hm).
Qed.

(** X21.  Any plan [getDistribution] returns, for any strategy string and any
    [Math.exp], goes through [handleAddLiquidity]'s rebuilding of the
    distributions without a throw: the three submitted arrays have ten
    entries each and the offsets are passed on unchanged. *)
Theorem returned_plan_is_submittable (Math_exp : float -> float)
  (strategy : string) (plan : BinPlan) :
  getDistribution Math_exp strategy = Normal plan ->
  exists params,
    liquidityDistributions plan = Normal params /\
    paramDeltaIds params = [-5; -4; -3; -2; -1; 0; 1; 2; 3; 4] /\
    List.length (paramDistributionX params) = 10%nat /\
    List.length (paramDistributionY params) = 10%nat.
Proof.
  intros H. destruct (getDistribution_inv _ _ _ H) as (nX & nY & HX & HY & ->).
  destruct (truncateSide_X_shape _ _ HX) as (a5 & a6 & a7 & a8 & a9 & ->).
  destruct (truncateSide_Y_shape _ _ HY) as (b0 & b1 & b2 & b3 & b4 & b5 & ->).
  destruct (adjusted_X_shape a5 a6 a7 a8 a9) as (x5 & x6 & x7 & x8 & x9 & HeX).
  destruct (adjusted_Y_shape b0 b1 b2 b3 b4 b5)
    as (y0 & y1 & y2 & y3 & y4 & y5 & HeY).
  rewrite HeX, HeY. eexists. split; [cbv -[Z.add]; reflexivity|].
  repeat split; reflexivity.
Qed.

Lemma sum_bigints_multiple (d : Z) (l : list Z) :
  Forall (fun v => (d | v)) l -> (d | sum_bigints l).
Proof.
  induction 1 as [|v l Hv _ IH]; [exists 0; reflexivity|].
  rewrite sum_bigints_cons. apply Z.divide_add_r; assumption.
Qed.

Lemma array_set_Forall {A : Type} (P : A -> Prop) (l : list A) (i : nat) (v : A) :
  Forall P l -> P v -> Forall P (array_set l i v).
Proof.
  intros Hl Hv. revert i. induction Hl as [|a l Ha Hl IH]; intros [|i]; simpl;
    constructor; auto.
Qed.

Lemma adjustSide_multiple (l : list Z) :
  Forall (fun v => (10 ^ 9 | v)) l ->
  Forall (fun v => (10 ^ 9 | v)) (adjustSide l).
Proof.
  intros Hl. unfold adjustSide.
  destruct (findIndex (fun v => negb (v =? 0)) l) as [k|]; [|exact Hl].
  apply array_set_Forall; [exact Hl|].
  apply Z.divide_add_r.
  - destruct (nth_in_or_default k l 0) as [Hin | ->].
    + rewrite Forall_forall in Hl. apply Hl, Hin.
    + exists 0; reflexivity.
  - apply Z.divide_sub_r; [exists (10 ^ 9); reflexivity|].
    apply sum_bigints_multiple, Hl.
Qed.

Lemma truncateSide_multiple (ws : list float) (ns : list Z) :
  truncateSide ws = Normal ns -> Forall (fun v => (10 ^ 9 | v)) ns.
Proof.
  unfold truncateSide. intros H. apply mapM_Forall2 in H.
  induction H as [|w v ws' ns' Hwv _ IH]; constructor; [|exact IH].
  unfold normalizeEntry in Hwv. destruct (w =? 0)%float.
  - injection Hwv as <-. exists 0; reflexivity.
  - exact (scaleRatio_multiple _ _ Hwv).
Qed.

(** X22.  Every entry of a returned plan is a whole multiple of 10^9: the
    weights are resolved to nine decimal places of the 10^18 scale, and
    the remainder added to one entry is such a multiple too. *)
Theorem plan_entries_multiples_of_giga (Math_exp : float -> float)
  (strategy : string) (plan : BinPlan) :
  getDistribution Math_exp strategy = Normal plan ->
  Forall (fun v => (10 ^ 9 | v)) (distributionX plan) /\
  Forall (fun v => (10 ^ 9 | v)) (distributionY plan).
Proof.
  intros H. destruct (getDistribution_inv _ _ _ H) as (nX & nY & HX & HY & ->).
  simpl. split.
  - exact (adjustSide_multiple _ (truncateSide_multiple _ _ HX)).
  - exact (adjustSide_multiple _ (truncateSide_multiple _ _ HY)).
Qed.

Lemma curve_in_range (Math_exp : float -> float) :
  faithfulExp Math_exp ->
  planInRange (strategyWeights Math_exp "curve") = true.
Proof.
  intros [H0 H1 H2 H3 H4 H5]. rewrite curve_weights, H0.
  each_ulp H1; each_ulp H2; each_ulp H3; each_ulp H4; each_ulp H5;
    vm_compute; reflexivity.
Qed.

(** X23.  For each of the three strategies every entry of both distributions of
    the plan lies between 0 and 10^18: the remainder never drives an
    entry negative, so each value fits the unsigned integers the router
    takes. *)
Theorem plan_entries_in_range (Math_exp : float -> float) (s : StrategyType) :
  faithfulExp Math_exp ->
  exists plan,
    getDistribution Math_exp (strategy_string s) = Normal plan /\
    Forall (fun v => 0 <= v <= 10 ^ 18)
      (distributionX plan ++ distributionY plan).
Proof.
  intros H.
  destruct (getDistribution_returns Math_exp s H) as (nX & nY & HX & HY & Hg & _).
  eexists. split; [exact Hg|].
  assert (Hr : planInRange (strategyWeights Math_exp (strategy_string s)) = true).
  { destruct s; simpl strategy_string;
      [vm_compute; reflexivity | apply curve_in_range, H
       | vm_compute; reflexivity]. }
  unfold planInRange, planFromWeights in Hr. rewrite HX, HY in Hr.
  cbn [bind] in Hr. rewrite forallb_forall in Hr.
  apply Forall_forall. intros v Hin. specialize (Hr v Hin).
  apply andb_true_iff in Hr as [Hlo Hhi].
  apply Z.leb_le in Hlo, Hhi. unfold PRECISION_BI in Hhi.
  change (10 ^ 18) with 1000000000000000000. lia.
Qed.

(** * The theorems on the example inputs *)

Lemma lowerAscii_idempotent (c : Ascii.ascii) :
  lowerAscii (lowerAscii c) = lowerAscii c.
Proof.
  destruct c as [[] [] [] [] [] [] [] []]; vm_compute; reflexivity.
Qed.

Lemma asciiToLowerCase_idempotent (s : string) :
  asciiToLowerCase (asciiToLowerCase s) = asciiToLowerCase s.
Proof.
  induction s as [|c s IH]; simpl; [reflexivity|].
  rewrite lowerAscii_idempotent, IH. reflexivity.
Qed.

Lemma poolAddresses_valid_witness :
  exists poolList,
    poolAddresses examplePairs (Some examplePairResults) = Normal poolList /\
    forall p, In p poolList ->
      pairAddress p <> ""%string /\ pairAddress p <> zeroAddress /\
      In (mkTokenPair (poolTokenX p) (poolTokenY p)) examplePairs.
Proof.
  apply (poolAddresses_valid examplePairs examplePairResults). simpl. lia.
Defined.

Lemma tokenInfoMap_entries_witness :
  exists fetched,
    fetchedTokenInfo asciiToLowerCase
      (tokenInfoCalls asciiToLowerCase examplePools) exampleInfoResults 0 []
    = Normal fetched /\
    (forall key, Map_get exampleInfoMap key
                 = match Map_get fetched key with
                   | Some v => Some v
                   | None => knownInfo asciiToLowerCase exampleTokens key
                   end) /\
    (forall t, In t exampleTokens ->
       Map_has exampleInfoMap (asciiToLowerCase (address t)) = true).
Proof.
  apply (tokenInfoMap_entries asciiToLowerCase exampleTokens
           (tokenInfoCalls asciiToLowerCase examplePools)
           (Some exampleInfoResults) exampleInfoMap).
  vm_compute. reflexivity.
Defined.

Lemma pools_show_fetched_info_witness :
  exists m,
    tokenInfoMap asciiToLowerCase exampleTokens
      (tokenInfoCalls asciiToLowerCase examplePools)
      (Some exampleInfoResults) = Normal m /\
    forall pool k sym dec,
      nth_error exampleInfoResults k = Some (Success sym, Success dec) ->
      (nth_error (uniqueTokens asciiToLowerCase examplePools) k
       = Some (asciiToLowerCase (poolTokenX pool)) ->
       infoTokenX (poolInfo asciiToLowerCase m pool)
       = mkPoolToken (poolTokenX pool) sym dec) /\
      (nth_error (uniqueTokens asciiToLowerCase examplePools) k
       = Some (asciiToLowerCase (poolTokenY pool)) ->
       infoTokenY (poolInfo asciiToLowerCase m pool)
       = mkPoolToken (poolTokenY pool) sym dec).
Proof.
  apply (pools_show_fetched_info asciiToLowerCase exampleTokens
           asciiToLowerCase_idempotent examplePools exampleInfoResults).
  vm_compute. lia.
Defined.

Lemma pools_of_known_tokens_resolved_witness :
  Map_get exampleInfoMap (asciiToLowerCase (poolTokenX examplePool))
  = Some (mkTokenInfo
            (ptSymbol (infoTokenX (poolInfo asciiToLowerCase exampleInfoMap
                                     examplePool)))
            (ptDecimals (infoTokenX (poolInfo asciiToLowerCase exampleInfoMap
                                       examplePool)))) /\
  Map_get exampleInfoMap (asciiToLowerCase (poolTokenY examplePool))
  = Some (mkTokenInfo
            (ptSymbol (infoTokenY (poolInfo asciiToLowerCase exampleInfoMap
                                     examplePool)))
            (ptDecimals (infoTokenY (poolInfo asciiToLowerCase exampleInfoMap
                                       examplePool)))).
Proof.
  apply (pools_of_known_tokens_resolved asciiToLowerCase exampleTokens
           (tokenInfoCalls asciiToLowerCase examplePools)
           (Some exampleInfoResults) exampleInfoMap examplePool).
  - vm_compute. reflexivity.
  - vm_compute. left. reflexivity.
Defined.

Lemma bins_around_active_witness :
  List.length (bins (Some 8388608) 5 exampleBinData) = Z.to_nat 5 /\
  forall i, 0 <= i < 5 ->
    exists b,
      nth_error (bins (Some 8388608) 5 exampleBinData) (Z.to_nat i) = Some b /\
      binId b = 8388608 - 5 / 2 + i /\
      Z.abs (binId b) <= 2 ^ 53 /\
      isActive b = (i =? 5 / 2) /\
      (binReserveX b, binReserveY b)
      = match exampleBinData with
        | Some d =>
            match nth_error d (Z.to_nat i) with
            | Some (Success r) => (nth 0 r 0, nth 1 r 0)
            | _ => (0, 0)
            end
        | None => (0, 0)
        end.
Proof.
  apply (bins_around_active 8388608 5 exampleBinData);
    [lia | lia | unfold idsExact; lia].
Defined.

Lemma bins_without_active_id_witness :
  binIds (Some 0) 50 = [] /\
  binCalls (Some "0x1111111111111111111111111111111111111111"%string)
    (Some 0) 50 = [] /\
  bins (Some 0) 50 exampleBinData = [].
Proof.
  apply (bins_without_active_id (Some 0) 50
           (Some "0x1111111111111111111111111111111111111111"%string)
           exampleBinData).
  reflexivity.
Defined.

Lemma slippageMin_bounds_witness :
  0 <= slippageMin 1999 <= 1999 /\
  95 * 1999 - 99 <= 100 * slippageMin 1999 <= 95 * 1999.
Proof.
  apply (slippageMin_bounds 1999). lia.
Defined.

Lemma resolveOrder_keeps_pairs_witness :
  ((finalTokenX exampleOrder = exampleWETH /\
    finalAmountX exampleOrder = "2"%string /\
    finalTokenY exampleOrder = exampleUSDC /\
    finalAmountY exampleOrder = "5000"%string) \/
   (finalTokenX exampleOrder = exampleUSDC /\
    finalAmountX exampleOrder = "5000"%string /\
    finalTokenY exampleOrder = exampleWETH /\
    finalAmountY exampleOrder = "2"%string)) /\
  (truthyOpt (Some (address exampleUSDC))
   && truthyOpt (Some (address exampleWETH)) = true ->
   Some (address exampleUSDC) = Some (finalContractTokenX exampleOrder) /\
   Some (address exampleWETH) = Some (finalContractTokenY exampleOrder) /\
   (asciiToLowerCase (address exampleWETH)
    = asciiToLowerCase (finalContractTokenX exampleOrder) \/
    asciiToLowerCase (address exampleUSDC)
    = asciiToLowerCase (finalContractTokenX exampleOrder) ->
    asciiToLowerCase (address (finalTokenX exampleOrder))
    = asciiToLowerCase (finalContractTokenX exampleOrder))) /\
  (truthyOpt (Some (address exampleUSDC))
   && truthyOpt (Some (address exampleWETH)) = false ->
   finalContractTokenX exampleOrder = address (finalTokenX exampleOrder) /\
   finalContractTokenY exampleOrder = address (finalTokenY exampleOrder) /\
   String.leb (asciiToLowerCase (finalContractTokenX exampleOrder))
     (asciiToLowerCase (finalContractTokenY exampleOrder)) = true).
Proof.
  apply (resolveOrder_keeps_pairs asciiToLowerCase exampleWETH exampleUSDC
           "2" "5000" (Some (address exampleUSDC)) (Some (address exampleWETH))
           exampleOrder).
  vm_compute. reflexivity.
Defined.

Lemma price_inverted_iff_amounts_swapped_witness :
  (priceNeedsSwap asciiToLowerCase exampleWETH exampleUSDC
     (Some (address exampleUSDC)) (Some (address exampleWETH)) None None = true /\
   currentPrice asciiToLowerCase (Some exampleWETH) (Some exampleUSDC)
     (Some 2500.5%float)
     (Some (address exampleUSDC)) (Some (address exampleWETH)) None None
   = (1 / 2500.5)%float /\
   finalTokenX exampleOrder = exampleUSDC /\
   finalAmountX exampleOrder = "5000"%string /\
   finalAmountY exampleOrder = "2"%string) \/
  (priceNeedsSwap asciiToLowerCase exampleWETH exampleUSDC
     (Some (address exampleUSDC)) (Some (address exampleWETH)) None None = false /\
   currentPrice asciiToLowerCase (Some exampleWETH) (Some exampleUSDC)
     (Some 2500.5%float)
     (Some (address exampleUSDC)) (Some (address exampleWETH)) None None
   = 2500.5%float /\
   finalTokenX exampleOrder = exampleWETH /\
   finalAmountX exampleOrder = "2"%string /\
   finalAmountY exampleOrder = "5000"%string).
Proof.
  apply (price_inverted_iff_amounts_swapped asciiToLowerCase
           exampleWETH exampleUSDC "2" "5000"
           (Some (address exampleUSDC)) (Some (address exampleWETH)) None None
           2500.5%float exampleOrder).
  - reflexivity.
  - vm_compute. discriminate.
  - reflexivity.
  - vm_compute. reflexivity.
Defined.

Lemma approval_covers_amount_witness :
  2000000000000000000 <= approvalAmount 2000000000000000000 /\
  needsApproval exampleParseUnits "2" (Some exampleWETH)
    (Some (approvalAmount 2000000000000000000)) = false.
Proof.
  apply (approval_covers_amount exampleParseUnits "2" exampleWETH
           2000000000000000000).
  - vm_compute. reflexivity.
  - lia.
Defined.


Lemma getDistribution_throws_only_RangeError_witness : RangeError = RangeError.
Proof.
  apply (getDistribution_throws_only_RangeError expTable "martingale" RangeError).
  vm_compute. reflexivity.
Defined.

Lemma returned_plan_is_submittable_witness :
  exists params,
    liquidityDistributions spotPlan = Normal params /\
    paramDeltaIds params = [-5; -4; -3; -2; -1; 0; 1; 2; 3; 4] /\
    List.length (paramDistributionX params) = 10%nat /\
    List.length (paramDistributionY params) = 10%nat.
Proof.
  apply (returned_plan_is_submittable expTable "spot" spotPlan).
  vm_compute. reflexivity.
Defined.

Lemma plan_entries_multiples_of_giga_witness :
  Forall (fun v => (10 ^ 9 | v)) (distributionX spotPlan) /\
  Forall (fun v => (10 ^ 9 | v)) (distributionY spotPlan).
Proof.
  apply (plan_entries_multiples_of_giga expTable "spot" spotPlan).
  vm_compute. reflexivity.
Defined.

Lemma plan_entries_in_range_witness :
  exists plan,
    getDistribution expTable "curve" = Normal plan /\
    Forall (fun v => 0 <= v <= 10 ^ 18)
      (distributionX plan ++ distributionY plan).
Proof.
  apply (plan_entries_in_range expTable curve). show_faithful.
Defined.

Lemma unrecognized_strategy_throws_witness :
  strategyWeights expTable "martingale" = [] /\
  normalizeAll (strategyWeights expTable "martingale") 5 = Normal [] /\
  getDistribution expTable "martingale" = Throw RangeError.
Proof.
  apply (unrecognized_strategy_throws expTable "martingale"); discriminate.
Defined.

Lemma bidask_extremes_heaviest_5_to_200_witness :
  (bidaskWeight 69 34 <? bidaskWeight 69 0)%float = true /\
  (bidaskWeight 69 34 <? bidaskWeight 69 (69 - 1))%float = true.
Proof.
  apply (bidask_extremes_heaviest_5_to_200 69 34); lia.
Defined.
